(** * Black-Scholes pricer and option-chain reporters

    Shallow embedding of [src/BlackScholes/black_scholes.py].

    Numbers.  A Python float is modelled by the real number it stands for:
    the rounding of a result to the nearest double is left out.  What the
    range of the doubles does to the path of the pricer is kept:
    [math.exp] and [**] raise [OverflowError] when their result is too large
    for a double, and a quotient or product too small for a double is the
    float zero when [math.log] or [/] tests it, so that [math.log] raises
    [ValueError] and [/] raises [ZeroDivisionError] on it.  A sum, product
    or quotient that is too large gives an infinity in Python and raises
    nothing; infinities are not modelled, and the statements about whole
    ranges of inputs carry bounds ([moderate_inputs]) that keep every
    intermediate result well inside the range.  Cells of the option chain
    may hold NaN, which the reporters test for; they are modelled by
    [pyfloat].

    Effects.  A function that may raise returns a [result]; the exception
    aborts the rest of the computation, as in Python.  Fetching the chain and
    printing the table are outside the model: the reporters take the spot
    price and the chain as arguments and return the list [prices] they
    build.  The display loops (lines 62-76 and 122-137) turn each entry of
    [prices] into one line of the table, rounded to 4 decimals. *)

From Stdlib Require Import Reals Lra Lia ZArith List Bool.
Import ListNotations.

Open Scope R_scope.

(** ** Exceptions *)

Inductive exn : Set :=
| ZeroDivisionError
| ValueError
| OverflowError.

Inductive result (A : Type) : Type :=
| Raise (e : exn)
| Return (a : A).

Arguments Raise {A} e.
Arguments Return {A} a.

Definition bind {A B : Type} (m : result A) (k : A -> result B) : result B :=
  match m with
  | Raise e => Raise e
  | Return a => k a
  end.

Notation "x <- m ;; k" := (bind m (fun x => k))
  (at level 61, m at next level, right associativity).

(** ** Float primitives *)

Module Py.

(** A real of this magnitude or more is beyond the largest double,
    [(2 - 2^-52) * 2^1023], by half a unit in the last place or more: it
    rounds to an infinity. *)
Definition overflow_threshold : R := 2 ^ 1024 - 2 ^ 970.

(** A real of this magnitude or less is at most half the smallest positive
    double, [2^-1074]: it rounds to zero. *)
Definition underflow_threshold : R := / 2 ^ 1075.

(** The float a computed real stands for, as far as its being zero goes. *)
Definition rounded (x : R) : R :=
  if Rle_dec (Rabs x) underflow_threshold then 0 else x.

(** [x / y] on floats. *)
Definition div (x y : R) : result R :=
  if Req_dec_T y 0 then Raise ZeroDivisionError else Return (x / y).

(** [math.log(x)]. *)
Definition log (x : R) : result R :=
  if Rle_dec x 0 then Raise ValueError else Return (ln x).

(** [math.sqrt(x)]. *)
Definition sqrt (x : R) : result R :=
  if Rlt_dec x 0 then Raise ValueError else Return (R_sqrt.sqrt x).

(** [x ** n] for a float [x] and a literal [n]. *)
Definition pow (x : R) (n : nat) : result R :=
  if Rle_dec overflow_threshold (Rabs (x ^ n))
  then Raise OverflowError
  else Return (x ^ n).

(** [math.exp(x)]. *)
Definition exp (x : R) : result R :=
  if Rle_dec overflow_threshold (Rtrigo_def.exp x)
  then Raise OverflowError
  else Return (Rtrigo_def.exp x).

End Py.

(** ** The standard normal distribution function, [scipy.stats.norm.cdf]

    [norm_cdf x = 1/2 + (1/sqrt(2 pi)) * integral from 0 to x of exp(-t^2/2)]. *)

Module Norm.

Definition kernel (t : R) : R := exp (- (t * t) / 2).

Definition kernel_integrable (a b : R) : Riemann_integrable kernel a b.
Proof.
  assert (C : continuity kernel).
  { apply derivable_continuous. unfold kernel. reg. }
  destruct (Rle_dec a b) as [H | H].
  - apply continuity_implies_RiemannInt; [exact H | intros; apply C].
  - apply RiemannInt_P1.
    apply continuity_implies_RiemannInt; [lra | intros; apply C].
Qed.

(** The integral of the kernel from [a] to [b]. *)
Definition area (a b : R) : R := RiemannInt (kernel_integrable a b).

Definition cdf (x : R) : R := 1 / 2 + / R_sqrt.sqrt (2 * PI) * area 0 x.

End Norm.

Definition norm_cdf : R -> R := Norm.cdf.

(** ** The pricer (lines 13-23)

    [Py.rounded] stands where line 14 hands a computed quotient or product
    to a primitive that tests it: [S / K] goes to [math.log], and
    [vol * math.sqrt(T)] is the divisor.  The numerator is evaluated before
    the denominator, so [vol ** 2] comes before [math.sqrt(T)].
    [math.exp(-r * T)] is evaluated on line 18 and again on line 21. *)

Definition black_scholes (S K T r vol : R) : result (R * R) :=
  q <- Py.div S K ;;
  l <- Py.log (Py.rounded q) ;;
  v2 <- Py.pow vol 2 ;;
  s <- Py.sqrt T ;;
  d1 <- Py.div (l + (r + 0.5 * v2) * T) (Py.rounded (vol * s)) ;;
  s' <- Py.sqrt T ;;
  let d2 := d1 - (vol * s') in
  e <- Py.exp (- r * T) ;;
  let c := S * norm_cdf d1 - (K * e * norm_cdf d2) in
  e' <- Py.exp (- r * T) ;;
  let p := (K * e' * norm_cdf (- d2) - S) * norm_cdf (- d1) in
  Return (c, p).

(** The quantities of the closed form, as the specification writes them. *)

Definition bs_d1 (S K T r vol : R) : R :=
  (ln (S / K) + (r + 0.5 * vol ^ 2) * T) / (vol * sqrt T).

Definition bs_d2 (S K T r vol : R) : R :=
  bs_d1 S K T r vol - vol * sqrt T.

Definition call_formula (S K T r vol : R) : R :=
  S * norm_cdf (bs_d1 S K T r vol)
  - K * exp (- r * T) * norm_cdf (bs_d2 S K T r vol).

Definition put_formula (S K T r vol : R) : R :=
  K * exp (- r * T) * norm_cdf (- bs_d2 S K T r vol)
  - S * norm_cdf (- bs_d1 S K T r vol).

(** The value line 21 computes for the put on inputs the pricer accepts: the
    subtraction of [S] sits inside the parenthesis that [norm.cdf(-d1)]
    multiplies. *)
Definition put_computed (S K T r vol : R) : R :=
  (K * exp (- r * T) * norm_cdf (- bs_d2 S K T r vol) - S)
  * norm_cdf (- bs_d1 S K T r vol).

(** Inputs far inside the range of the doubles: spot, strike, time and the
    magnitude of the volatility between [2^-64] and [2^64], the rate at most
    [2^64] in magnitude, and [r * T] at most 500 in magnitude.  On them no
    operation of the pricer overflows or underflows. *)
Definition moderate_inputs (S K T r vol : R) : Prop :=
  / 2 ^ 64 <= S <= 2 ^ 64
  /\ / 2 ^ 64 <= K <= 2 ^ 64
  /\ / 2 ^ 64 <= T <= 2 ^ 64
  /\ / 2 ^ 64 <= Rabs vol <= 2 ^ 64
  /\ Rabs r <= 2 ^ 64
  /\ Rabs (r * T) <= 500.

(** ** Time to expiry (lines 33 and 86)

    [datetime] and [timedelta] of the Python library.  A [datetime] is kept
    as the ordinal of its date ([toordinal()]) and its time of day; the
    difference of two of them is the [timedelta] built from the differences
    of the ordinals, of the seconds of the day and of the microseconds, which
    the constructor normalises so that [0 <= seconds < 86400] and
    [0 <= microseconds < 1000000]. *)

Record datetime : Set := mk_datetime {
  toordinal : Z;
  hour : Z;
  minute : Z;
  second : Z;
  microsecond : Z
}.

Record timedelta : Set := mk_timedelta {
  days : Z;
  seconds : Z;
  microseconds : Z
}.

Definition timedelta_new (d s us : Z) : timedelta :=
  let s1 := (s + us / 1000000)%Z in
  let us1 := (us mod 1000000)%Z in
  let d1 := (d + s1 / 86400)%Z in
  let s2 := (s1 mod 86400)%Z in
  mk_timedelta d1 s2 us1.

Definition seconds_of_day (a : datetime) : Z :=
  (second a + minute a * 60 + hour a * 3600)%Z.

Definition datetime_sub (a b : datetime) : timedelta :=
  timedelta_new (toordinal a - toordinal b)
                (seconds_of_day a - seconds_of_day b)
                (microsecond a - microsecond b).

(** [datetime.strptime(expiry, "%Y-%m-%d")]: midnight of the date the string
    names; the string is represented by the ordinal of that date. *)
Definition strptime (expiry : Z) : datetime := mk_datetime expiry 0 0 0 0.

(** A [datetime] as [datetime.now()] can return it. *)
Definition datetime_wf (a : datetime) : Prop :=
  (0 <= hour a < 24 /\ 0 <= minute a < 60 /\ 0 <= second a < 60
   /\ 0 <= microsecond a < 1000000)%Z.

(** [(datetime.strptime(expiry, "%Y-%m-%d") - datetime.now()).days / 365] *)
Definition time_to_expiry (expiry : Z) (now : datetime) : R :=
  IZR (days (datetime_sub (strptime expiry) now)) / 365.

(** The quantities the specification speaks of: the difference of the two
    calendar dates, and the time from now to the midnight that opens the
    expiry date, in microseconds. *)
Definition date_difference (expiry : Z) (now : datetime) : Z :=
  (expiry - toordinal now)%Z.

Definition elapsed_us (expiry : Z) (now : datetime) : Z :=
  (((expiry - toordinal now) * 86400 - seconds_of_day now) * 1000000
   - microsecond now)%Z.

Definition us_per_day : Z := 86400000000%Z.

(** ** The option chain *)

(** A float cell of the chain. *)
Inductive pyfloat : Type :=
| NaN
| Fin (x : R).

Definition float_add (a b : pyfloat) : pyfloat :=
  match a, b with
  | Fin x, Fin y => Fin (x + y)
  | _, _ => NaN
  end.

Definition float_div2 (a : pyfloat) : pyfloat :=
  match a with
  | Fin x => Fin (x / 2)
  | NaN => NaN
  end.

Definition np_isnan (a : pyfloat) : bool :=
  match a with
  | NaN => true
  | Fin _ => false
  end.

(** A row of [option.calls]: the cells the reporters read.  The strike is a
    float that is not NaN; [impliedVolatility] may be [None]. *)
Record OptionRow : Type := mk_OptionRow {
  strike : R;
  impliedVolatility : option pyfloat;
  bid : pyfloat;
  ask : pyfloat
}.

(** [vol is None or vol <= 0 or np.isnan(vol)] (lines 47 and 100): the result
    is [None] when the test holds and the row is skipped, and the float that
    goes on to the pricer otherwise.  A NaN fails [vol <= 0] and is caught by
    [np.isnan]. *)
Definition checked_vol (vol : option pyfloat) : option R :=
  match vol with
  | None => None
  | Some NaN => None
  | Some (Fin v) => if Rle_dec v 0 then None else Some v
  end.

(** ** The reporters *)

(** [for x in l: body], the body threading the state and possibly raising. *)
Fixpoint for_each {A B : Type} (body : B -> A -> result B) (l : list A) (acc : B)
  : result B :=
  match l with
  | [] => Return acc
  | x :: l' => acc' <- body acc x ;; for_each body l' acc'
  end.

(** An entry of [prices] in [black_scholes_table]. *)
Record ModelRow : Type := mk_ModelRow {
  model_strike : R;
  call_price : R;
  put_price : R;
  model_vol : R
}.

(** An entry of [prices] in [blkschl_vs_market]. *)
Record MarketRow : Type := mk_MarketRow {
  market_strike : R;
  model_price : R;
  market_price : R;
  difference : R;
  market_vol : R
}.

(** Body of the loop of lines 42-59. *)
Definition table_body (S t r : R) (prices : list ModelRow) (call : OptionRow)
  : result (list ModelRow) :=
  let K := strike call in
  match checked_vol (impliedVolatility call) with
  | None => Return prices
  | Some vol =>
      px <- black_scholes S K t r vol ;;
      let '(call_px, put_px) := px in
      Return (prices ++ [mk_ModelRow K call_px put_px vol])
  end.

(** The list [prices] after the loop, for spot [S], time to expiry [t] and
    rate [r]. *)
Definition table_prices (S t r : R) (calls : list OptionRow)
  : result (list ModelRow) :=
  for_each (table_body S t r) calls [].

(** [black_scholes_table]: [S] and [calls] stand for the data fetched for
    [tic] and [expiry]. *)
Definition black_scholes_table (S : R) (calls : list OptionRow)
  (expiry : Z) (now : datetime) (r : R) : result (list ModelRow) :=
  let t := time_to_expiry expiry now in
  table_prices S t r calls.

(** Body of the loop of lines 95-119.  [np.isnan(mid)] is the [NaN] branch of
    the match on [mid], [float(mid)] the real of the other. *)
Definition market_body (S t r : R) (prices : list MarketRow) (call : OptionRow)
  : result (list MarketRow) :=
  let K := strike call in
  match checked_vol (impliedVolatility call) with
  | None => Return prices
  | Some vol =>
      px <- black_scholes S K t r vol ;;
      let '(model_call, _) := px in
      let mid := float_div2 (float_add (bid call) (ask call)) in
      match mid with
      | NaN => Return prices
      | Fin mkt_call =>
          Return (prices ++
                  [mk_MarketRow K model_call mkt_call (mkt_call - model_call) vol])
      end
  end.

Definition market_prices (S t r : R) (calls : list OptionRow)
  : result (list MarketRow) :=
  for_each (market_body S t r) calls [].

(** [blkschl_vs_market]. *)
Definition blkschl_vs_market (S : R) (calls : list OptionRow)
  (expiry : Z) (now : datetime) (r : R) : result (list MarketRow) :=
  let t := time_to_expiry expiry now in
  market_prices S t r calls.

(** The default of the parameter [r]. *)
Definition default_r : R := 0.045.

(** ** The rows the specification speaks of *)

(** A chain row whose implied volatility is present, positive and not NaN. *)
Definition has_valid_iv (call : OptionRow) : bool :=
  match impliedVolatility call with
  | Some (Fin v) => if Rlt_dec 0 v then true else false
  | Some NaN => false
  | None => false
  end.

(** The market mid-price of a row, [(bid + ask) / 2]. *)
Definition mid_price (call : OptionRow) : pyfloat :=
  float_div2 (float_add (bid call) (ask call)).

(** The rows the comparison keeps: a valid implied volatility and a mid-price
    that is not NaN. *)
Definition quoted (call : OptionRow) : bool :=
  has_valid_iv call && negb (np_isnan (mid_price call)).

(** A row of the model table answers a chain row: same strike, the row's
    volatility, and the prices the pricer returns for them. *)
Definition model_row_of (S t r : R) (call : OptionRow) (row : ModelRow) : Prop :=
  impliedVolatility call = Some (Fin (model_vol row))
  /\ 0 < model_vol row
  /\ model_strike row = strike call
  /\ black_scholes S (strike call) t r (model_vol row)
     = Return (call_price row, put_price row).

(** A row of the comparison table answers a chain row. *)
Definition market_row_of (S t r : R) (call : OptionRow) (row : MarketRow) : Prop :=
  impliedVolatility call = Some (Fin (market_vol row))
  /\ 0 < market_vol row
  /\ market_strike row = strike call
  /\ mid_price call = Fin (market_price row)
  /\ difference row = market_price row - model_price row
  /\ exists p : R,
       black_scholes S (strike call) t r (market_vol row)
       = Return (model_price row, p).

(** The pricer returns on every row of the chain that gets to it. *)
Definition pricer_returns_on (S t r : R) (calls : list OptionRow) : Prop :=
  forall (call : OptionRow) (vol : R),
    In call calls ->
    checked_vol (impliedVolatility call) = Some vol ->
    exists px : R * R, black_scholes S (strike call) t r vol = Return px.

(** ** Sample chains *)

(** Three rows, the second with a NaN implied volatility. *)
Definition chain_nan_second : list OptionRow :=
  [ mk_OptionRow 90 (Some (Fin 0.25)) (Fin 12) (Fin 13);
    mk_OptionRow 100 (Some NaN) (Fin 5) (Fin 6);
    mk_OptionRow 110 (Some (Fin 0.2)) (Fin 1) (Fin 2) ].

(** Quotes no market would show: a negative bid above a negative ask, then a
    bid above the ask, then a missing bid. *)
Definition chain_odd_quotes : list OptionRow :=
  [ mk_OptionRow 90 (Some (Fin 0.25)) (Fin (- 1)) (Fin (- 3));
    mk_OptionRow 100 (Some (Fin 0.2)) (Fin 7) (Fin 5);
    mk_OptionRow 110 (Some (Fin 0.2)) NaN (Fin 5) ].

(** ** Notions used to state further properties *)

(** [l1] is [l2] with some elements left out, the order kept. *)
Inductive subseq {A : Type} : list A -> list A -> Prop :=
| subseq_nil : subseq [] []
| subseq_keep (x : A) (l1 l2 : list A) : subseq l1 l2 -> subseq (x :: l1) (x :: l2)
| subseq_drop (x : A) (l1 l2 : list A) : subseq l1 l2 -> subseq l1 (x :: l2).

(** Strike, model call price and volatility of an entry of either list
    [prices]. *)
Definition model_columns (row : ModelRow) : R * R * R :=
  (model_strike row, call_price row, model_vol row).

Definition market_columns (row : MarketRow) : R * R * R :=
  (market_strike row, model_price row, market_vol row).

(** The volatility a row hands to the pricer (0 for a row that is skipped). *)
Definition iv_value (call : OptionRow) : R :=
  match checked_vol (impliedVolatility call) with
  | Some v => v
  | None => 0
  end.

(** The outcome of the pricer with both prices multiplied by [k]. *)
Definition scale_prices (k : R) (m : result (R * R)) : result (R * R) :=
  match m with
  | Raise e => Raise e
  | Return (c, p) => Return (k * c, k * p)
  end.

(** The mid-price of a row as a number (0 when it is NaN). *)
Definition mid_value (call : OptionRow) : R :=
  match mid_price call with
  | Fin m => m
  | NaN => 0
  end.

(** The entries the two lists get for a row when spot, strike and time are
    positive: the call of the closed form and the put of line 21. *)
Definition model_entry (S t r : R) (call : OptionRow) : ModelRow :=
  mk_ModelRow (strike call)
              (call_formula S (strike call) t r (iv_value call))
              (put_computed S (strike call) t r (iv_value call))
              (iv_value call).

Definition market_entry (S t r : R) (call : OptionRow) : MarketRow :=
  mk_MarketRow (strike call)
               (call_formula S (strike call) t r (iv_value call))
               (mid_value call)
               (mid_value call - call_formula S (strike call) t r (iv_value call))
               (iv_value call).

(** Every row that gets to the pricer does so on inputs far inside the range
    of the doubles. *)
Definition moderate_chain (S t r : R) (calls : list OptionRow) : Prop :=
  forall (call : OptionRow) (vol : R),
    In call calls ->
    checked_vol (impliedVolatility call) = Some vol ->
    moderate_inputs S (strike call) t r vol.

(** * Facts *)

(** ** Float primitives *)

Module PyFacts.

Lemma div_ok (x y : R) : y <> 0 -> Py.div x y = Return (x / y).
Proof.
  intros H. unfold Py.div.
  destruct (Req_dec_T y 0); [contradiction | reflexivity].
Qed.

Lemma div_zero (x y : R) : y = 0 -> Py.div x y = Raise ZeroDivisionError.
Proof.
  intros H. unfold Py.div.
  destruct (Req_dec_T y 0); [reflexivity | contradiction].
Qed.

Lemma log_ok (x : R) : 0 < x -> Py.log x = Return (ln x).
Proof. intros H. unfold Py.log. destruct (Rle_dec x 0); [lra | reflexivity]. Qed.

Lemma log_err (x : R) : x <= 0 -> Py.log x = Raise ValueError.
Proof. intros H. unfold Py.log. destruct (Rle_dec x 0); [reflexivity | lra]. Qed.

Lemma sqrt_ok (x : R) : 0 <= x -> Py.sqrt x = Return (sqrt x).
Proof. intros H. unfold Py.sqrt. destruct (Rlt_dec x 0); [lra | reflexivity]. Qed.

Lemma sqrt_err (x : R) : x < 0 -> Py.sqrt x = Raise ValueError.
Proof. intros H. unfold Py.sqrt. destruct (Rlt_dec x 0); [reflexivity | lra]. Qed.

Lemma rounded_id (x : R) : Py.underflow_threshold < Rabs x -> Py.rounded x = x.
Proof.
  intros H. unfold Py.rounded.
  destruct (Rle_dec (Rabs x) Py.underflow_threshold); [lra | reflexivity].
Qed.

Lemma rounded_zero (x : R) : Rabs x <= Py.underflow_threshold -> Py.rounded x = 0.
Proof.
  intros H. unfold Py.rounded.
  destruct (Rle_dec (Rabs x) Py.underflow_threshold); [reflexivity | contradiction].
Qed.

Lemma rounded_nonpos (x : R) : x <= 0 -> Py.rounded x <= 0.
Proof. intros H. unfold Py.rounded. destruct (Rle_dec _ _); lra. Qed.

Lemma pow_ok (x : R) (n : nat) :
  Rabs (x ^ n) < Py.overflow_threshold -> Py.pow x n = Return (x ^ n).
Proof.
  intros H. unfold Py.pow.
  destruct (Rle_dec Py.overflow_threshold (Rabs (x ^ n))); [lra | reflexivity].
Qed.

Lemma pow_err (x : R) (n : nat) :
  Py.overflow_threshold <= Rabs (x ^ n) -> Py.pow x n = Raise OverflowError.
Proof.
  intros H. unfold Py.pow.
  destruct (Rle_dec Py.overflow_threshold (Rabs (x ^ n))); [reflexivity | contradiction].
Qed.

Lemma exp_ok (x : R) :
  exp x < Py.overflow_threshold -> Py.exp x = Return (exp x).
Proof.
  intros H. unfold Py.exp.
  destruct (Rle_dec Py.overflow_threshold (exp x)); [lra | reflexivity].
Qed.

Lemma exp_err (x : R) :
  Py.overflow_threshold <= exp x -> Py.exp x = Raise OverflowError.
Proof.
  intros H. unfold Py.exp.
  destruct (Rle_dec Py.overflow_threshold (exp x)); [reflexivity | contradiction].
Qed.

(** The thresholds against ordinary numbers. *)

Lemma underflow_threshold_small : 0 < Py.underflow_threshold < / 2 ^ 256.
Proof. unfold Py.underflow_threshold. lra. Qed.

Lemma overflow_threshold_large : 2 ^ 1023 <= Py.overflow_threshold.
Proof. unfold Py.overflow_threshold. lra. Qed.

Lemma exp_nat (n : nat) (x : R) : exp (INR n * x) = exp x ^ n.
Proof.
  induction n as [ | n IH].
  - cbn. rewrite Rmult_0_l. apply exp_0.
  - rewrite S_INR, Rmult_plus_distr_r, Rmult_1_l, exp_plus, IH. cbn. ring.
Qed.

Lemma exp_le_500 (x : R) : x <= 500 -> exp x < Py.overflow_threshold.
Proof.
  intros H.
  assert (E : exp 500 = exp 1 ^ 500).
  { rewrite <- exp_nat. f_equal.
    rewrite INR_IZR_INZ. replace (Z.of_nat 500) with 500%Z by reflexivity. lra. }
  assert (H3 : exp 1 ^ 500 <= 3 ^ 500).
  { apply pow_incr. split; [left; apply exp_pos | apply exp_le_3]. }
  assert (Hm : exp x <= exp 500).
  { destruct H as [H | ->]; [left; apply exp_increasing; exact H | right; reflexivity]. }
  unfold Py.overflow_threshold. lra.
Qed.

Lemma exp_ge_1000 (x : R) : 1000 <= x -> Py.overflow_threshold <= exp x.
Proof.
  intros H.
  assert (E : exp 1000 = exp (1 / 2) ^ 2000).
  { rewrite <- exp_nat. f_equal.
    rewrite INR_IZR_INZ. replace (Z.of_nat 2000) with 2000%Z by reflexivity. lra. }
  assert (Hh : 3 / 2 <= exp (1 / 2)).
  { left. pose proof (exp_ineq1 (1 / 2)). lra. }
  assert (H3 : (3 / 2) ^ 2000 <= exp (1 / 2) ^ 2000).
  { apply pow_incr. split; [lra | exact Hh]. }
  assert (Hm : exp 1000 <= exp x).
  { destruct H as [H | <-]; [left; apply exp_increasing; exact H | right; reflexivity]. }
  unfold Py.overflow_threshold. lra.
Qed.

End PyFacts.

(** ** The normal distribution function: additivity and bounds of the
    integral, symmetry *)

Module NormFacts.
Import Norm.

Lemma kernel_continuity : continuity kernel.
Proof. apply derivable_continuous. unfold kernel. reg. Qed.

Lemma kernel_pos (t : R) : 0 < kernel t.
Proof. apply exp_pos. Qed.

Lemma kernel_le_1 (t : R) : kernel t <= 1.
Proof.
  unfold kernel. rewrite <- exp_0.
  destruct (Req_dec_T (- (t * t) / 2) 0) as [E | N].
  - rewrite E. lra.
  - left. apply exp_increasing. nra.
Qed.

Lemma kernel_even (t : R) : kernel (- t) = kernel t.
Proof. unfold kernel. f_equal. lra. Qed.

Lemma area_refl (a : R) : area a a = 0.
Proof. unfold area. apply RiemannInt_P9. Qed.

Lemma area_swap (a b : R) : area a b = - area b a.
Proof. unfold area. apply RiemannInt_P8. Qed.

Lemma area_bounds (a b : R) : a <= b -> 0 <= area a b <= b - a.
Proof.
  intros H. unfold area.
  pose proof (@RiemannInt_const_bound kernel a b 0 1 (kernel_integrable a b) H) as B.
  assert (Hk : forall x, a < x < b -> 0 <= kernel x <= 1).
  { intros x _. split; [left; apply kernel_pos | apply kernel_le_1]. }
  specialize (B Hk). lra.
Qed.

Lemma area_chasles (a b c : R) : area a b + area b c = area a c.
Proof. unfold area. apply RiemannInt_P26. Qed.

Lemma inv_sqrt_2PI_bounds : 0 < / sqrt (2 * PI) < 1 / 2.
Proof.
  pose proof PI2_3_2 as HPI.
  assert (H2 : 2 < sqrt (2 * PI)).
  { replace 2 with (sqrt (2 * 2)) at 1 by (rewrite sqrt_square; lra).
    apply sqrt_lt_1; lra. }
  split.
  - apply Rinv_0_lt_compat. lra.
  - replace (1 / 2) with (/ 2) by lra.
    apply Rinv_lt_contravar; [nra | exact H2].
Qed.

Lemma cdf_0 : cdf 0 = 1 / 2.
Proof. unfold cdf. rewrite area_refl. lra. Qed.

Lemma cdf_nonneg_arg (x : R) :
  0 <= x -> 1 / 2 <= cdf x <= 1 / 2 + x / 2.
Proof.
  intros Hx. unfold cdf.
  pose proof (area_bounds 0 x Hx) as [A1 A2].
  pose proof inv_sqrt_2PI_bounds as [C1 C2].
  split; nra.
Qed.

Lemma cdf_nonpos_arg (x : R) :
  x <= 0 -> 1 / 2 + x / 2 <= cdf x <= 1 / 2.
Proof.
  intros Hx. unfold cdf. rewrite area_swap.
  assert (Hx' : x <= 0) by exact Hx.
  pose proof (area_bounds x 0 Hx') as [A1 A2].
  pose proof inv_sqrt_2PI_bounds as [C1 C2].
  split; nra.
Qed.

Lemma primitive_is_area (a b : R) (h : a <= b)
      (pr : forall x, a <= x -> x <= b -> Riemann_integrable kernel a x) (t : R) :
  a <= t <= b -> primitive h pr t = area a t.
Proof.
  intros [H1 H2]. unfold primitive, area.
  destruct (Rle_dec a t) as [r | n]; [ | contradiction].
  destruct (Rle_dec t b) as [r0 | n0]; [ | contradiction].
  apply RiemannInt_P5.
Qed.

Lemma area_reflect_nonneg (x : R) : 0 <= x -> area (- x) 0 = area 0 x.
Proof.
  intros Hx.
  assert (h : - x <= x) by lra.
  assert (C0 : forall t, - x <= t <= x -> continuity_pt kernel t)
    by (intros; apply kernel_continuity).
  set (G := primitive h (FTC_P1 h C0)).
  assert (HG : antiderivative kernel G (- x) x) by apply RiemannInt_P29.
  assert (HH : antiderivative kernel (fun t => - G (- t)) (- x) x).
  { split; [ | exact h]. intros t Ht.
    destruct HG as [HG _].
    destruct (HG (- t)) as [pr Epr]; [lra | ].
    assert (L : derivable_pt_lim G (- t) (kernel t)).
    { rewrite <- kernel_even, Epr. apply derive_pt_eq_1 with (pr := pr). reflexivity. }
    assert (L1 : derivable_pt_lim (- id)%F t (- 1)).
    { apply derivable_pt_lim_opp. apply derivable_pt_lim_id. }
    assert (L2 : derivable_pt_lim (- (comp G (- id)))%F t (- (kernel t * - 1))).
    { apply derivable_pt_lim_opp. apply derivable_pt_lim_comp; [exact L1 | exact L]. }
    assert (L3 : derivable_pt_lim (fun t => - G (- t)) t (kernel t)).
    { replace (kernel t) with (- (kernel t * - 1)) by lra. exact L2. }
    exists (exist _ (kernel t) L3). reflexivity. }
  destruct (antiderivative_Ucte kernel G (fun t => - G (- t)) (- x) x HG HH) as [c Hc].
  assert (E0 : G 0 = - G (- 0) + c) by (apply Hc; lra).
  assert (Ex : G x = - G (- x) + c) by (apply Hc; lra).
  rewrite Ropp_0 in E0.
  unfold G in E0, Ex.
  rewrite (primitive_is_area _ _ h _ 0) in E0 by lra.
  rewrite (primitive_is_area _ _ h _ x), (primitive_is_area _ _ h _ (- x)) in Ex by lra.
  rewrite area_refl in Ex.
  pose proof (area_chasles (- x) 0 x). lra.
Qed.

Lemma area_reflect (x : R) : area 0 (- x) = - area 0 x.
Proof.
  destruct (Rle_dec 0 x) as [H | H].
  - rewrite (area_swap 0 (- x)). rewrite area_reflect_nonneg by exact H. reflexivity.
  - assert (H' : 0 <= - x) by lra.
    pose proof (area_reflect_nonneg (- x) H') as E.
    rewrite Ropp_involutive in E.
    rewrite (area_swap 0 x). lra.
Qed.

Lemma cdf_opp (x : R) : cdf (- x) = 1 - cdf x.
Proof. unfold cdf. rewrite area_reflect. lra. Qed.

End NormFacts.

(** ** The pricer *)

Section Pricer.

Variables S K T r vol : R.

(** Whenever no primitive raises, the pricer returns the call of the closed
    form together with [put_computed]. *)
Lemma black_scholes_returns :
  K <> 0 -> Py.underflow_threshold < S / K ->
  vol ^ 2 < Py.overflow_threshold ->
  0 <= T -> Py.underflow_threshold < Rabs (vol * sqrt T) ->
  exp (- r * T) < Py.overflow_threshold ->
  black_scholes S K T r vol
  = Return (call_formula S K T r vol, put_computed S K T r vol).
Proof.
  intros HK HSK Hpow HT Hden Hexp. unfold black_scholes.
  pose proof PyFacts.underflow_threshold_small as [Hu _].
  rewrite (PyFacts.div_ok S K HK). cbn [bind].
  rewrite PyFacts.rounded_id by (rewrite Rabs_right; lra).
  rewrite PyFacts.log_ok by lra. cbn [bind].
  rewrite PyFacts.pow_ok by (rewrite Rabs_right; [exact Hpow | nra]). cbn [bind].
  rewrite (PyFacts.sqrt_ok _ HT). cbn [bind].
  rewrite PyFacts.rounded_id by exact Hden.
  rewrite PyFacts.div_ok by (intros E; rewrite E, Rabs_R0 in Hden; lra). cbn [bind].
  rewrite (PyFacts.exp_ok _ Hexp). cbn [bind].
  reflexivity.
Qed.

Lemma black_scholes_strike_zero :
  K = 0 -> black_scholes S K T r vol = Raise ZeroDivisionError.
Proof.
  intros HK. unfold black_scholes.
  rewrite (PyFacts.div_zero S K HK). reflexivity.
Qed.

Lemma black_scholes_log_domain :
  K <> 0 -> S / K <= Py.underflow_threshold ->
  black_scholes S K T r vol = Raise ValueError.
Proof.
  intros HK HSK. unfold black_scholes.
  pose proof PyFacts.underflow_threshold_small as [Hu _].
  rewrite (PyFacts.div_ok S K HK). cbn [bind].
  rewrite PyFacts.log_err; [reflexivity | ].
  destruct (Rle_dec (S / K) 0) as [Hn | Hp].
  - apply PyFacts.rounded_nonpos. exact Hn.
  - rewrite PyFacts.rounded_zero; [lra | rewrite Rabs_right; lra].
Qed.

Lemma black_scholes_pow_overflow :
  K <> 0 -> Py.underflow_threshold < S / K ->
  Py.overflow_threshold <= vol ^ 2 ->
  black_scholes S K T r vol = Raise OverflowError.
Proof.
  intros HK HSK Hpow. unfold black_scholes.
  pose proof PyFacts.underflow_threshold_small as [Hu _].
  rewrite (PyFacts.div_ok S K HK). cbn [bind].
  rewrite PyFacts.rounded_id by (rewrite Rabs_right; lra).
  rewrite PyFacts.log_ok by lra. cbn [bind].
  rewrite PyFacts.pow_err; [reflexivity | ].
  rewrite Rabs_right; [exact Hpow | nra].
Qed.

Lemma black_scholes_sqrt_domain :
  K <> 0 -> Py.underflow_threshold < S / K ->
  vol ^ 2 < Py.overflow_threshold -> T < 0 ->
  black_scholes S K T r vol = Raise ValueError.
Proof.
  intros HK HSK Hpow HT. unfold black_scholes.
  pose proof PyFacts.underflow_threshold_small as [Hu _].
  rewrite (PyFacts.div_ok S K HK). cbn [bind].
  rewrite PyFacts.rounded_id by (rewrite Rabs_right; lra).
  rewrite PyFacts.log_ok by lra. cbn [bind].
  rewrite PyFacts.pow_ok by (rewrite Rabs_right; [exact Hpow | nra]). cbn [bind].
  rewrite (PyFacts.sqrt_err _ HT). reflexivity.
Qed.

Lemma black_scholes_zero_denominator :
  K <> 0 -> Py.underflow_threshold < S / K ->
  vol ^ 2 < Py.overflow_threshold ->
  0 <= T -> Rabs (vol * sqrt T) <= Py.underflow_threshold ->
  black_scholes S K T r vol = Raise ZeroDivisionError.
Proof.
  intros HK HSK Hpow HT Hden. unfold black_scholes.
  pose proof PyFacts.underflow_threshold_small as [Hu _].
  rewrite (PyFacts.div_ok S K HK). cbn [bind].
  rewrite PyFacts.rounded_id by (rewrite Rabs_right; lra).
  rewrite PyFacts.log_ok by lra. cbn [bind].
  rewrite PyFacts.pow_ok by (rewrite Rabs_right; [exact Hpow | nra]). cbn [bind].
  rewrite (PyFacts.sqrt_ok _ HT). cbn [bind].
  rewrite (PyFacts.rounded_zero _ Hden).
  rewrite PyFacts.div_zero by reflexivity. reflexivity.
Qed.

Lemma black_scholes_exp_overflow :
  K <> 0 -> Py.underflow_threshold < S / K ->
  vol ^ 2 < Py.overflow_threshold ->
  0 <= T -> Py.underflow_threshold < Rabs (vol * sqrt T) ->
  Py.overflow_threshold <= exp (- r * T) ->
  black_scholes S K T r vol = Raise OverflowError.
Proof.
  intros HK HSK Hpow HT Hden Hexp. unfold black_scholes.
  pose proof PyFacts.underflow_threshold_small as [Hu _].
  rewrite (PyFacts.div_ok S K HK). cbn [bind].
  rewrite PyFacts.rounded_id by (rewrite Rabs_right; lra).
  rewrite PyFacts.log_ok by lra. cbn [bind].
  rewrite PyFacts.pow_ok by (rewrite Rabs_right; [exact Hpow | nra]). cbn [bind].
  rewrite (PyFacts.sqrt_ok _ HT). cbn [bind].
  rewrite PyFacts.rounded_id by exact Hden.
  rewrite PyFacts.div_ok by (intros E; rewrite E, Rabs_R0 in Hden; lra). cbn [bind].
  rewrite (PyFacts.exp_err _ Hexp). reflexivity.
Qed.

(** The outcome of the pricer on every input, primitive by primitive in
    the order of evaluation. *)
Lemma black_scholes_outcome :
  (K = 0 /\ black_scholes S K T r vol = Raise ZeroDivisionError)
  \/ (K <> 0 /\ S / K <= Py.underflow_threshold
      /\ black_scholes S K T r vol = Raise ValueError)
  \/ (K <> 0 /\ Py.underflow_threshold < S / K
      /\ Py.overflow_threshold <= vol ^ 2
      /\ black_scholes S K T r vol = Raise OverflowError)
  \/ (K <> 0 /\ Py.underflow_threshold < S / K /\ T < 0
      /\ black_scholes S K T r vol = Raise ValueError)
  \/ (K <> 0 /\ Py.underflow_threshold < S / K /\ 0 <= T
      /\ Rabs (vol * sqrt T) <= Py.underflow_threshold
      /\ black_scholes S K T r vol = Raise ZeroDivisionError)
  \/ (K <> 0 /\ Py.underflow_threshold < S / K /\ 0 <= T
      /\ Py.underflow_threshold < Rabs (vol * sqrt T)
      /\ Py.overflow_threshold <= exp (- r * T)
      /\ black_scholes S K T r vol = Raise OverflowError)
  \/ (K <> 0 /\ Py.underflow_threshold < S / K /\ 0 <= T
      /\ Py.underflow_threshold < Rabs (vol * sqrt T)
      /\ black_scholes S K T r vol
         = Return (call_formula S K T r vol, put_computed S K T r vol)).
Proof.
  destruct (Req_dec_T K 0) as [HK | HK].
  { left. split; [exact HK | apply black_scholes_strike_zero; exact HK]. }
  right.
  destruct (Rle_dec (S / K) Py.underflow_threshold) as [HSK | HSK].
  { left. repeat split; try assumption. apply black_scholes_log_domain; assumption. }
  right.
  assert (HSK' : Py.underflow_threshold < S / K) by lra.
  destruct (Rle_dec Py.overflow_threshold (vol ^ 2)) as [Hp | Hp].
  { left. repeat split; try assumption. apply black_scholes_pow_overflow; assumption. }
  right.
  assert (Hp' : vol ^ 2 < Py.overflow_threshold) by lra.
  destruct (Rlt_dec T 0) as [HT | HT].
  { left. repeat split; try assumption. apply black_scholes_sqrt_domain; assumption. }
  right.
  assert (HT' : 0 <= T) by lra.
  destruct (Rle_dec (Rabs (vol * sqrt T)) Py.underflow_threshold) as [HD | HD].
  { left. repeat split; try assumption.
    apply black_scholes_zero_denominator; assumption. }
  right.
  assert (HD' : Py.underflow_threshold < Rabs (vol * sqrt T)) by lra.
  destruct (Rle_dec Py.overflow_threshold (exp (- r * T))) as [HE | HE].
  { left. repeat split; try assumption.
    apply black_scholes_exp_overflow; assumption. }
  right. repeat split; try assumption.
  apply black_scholes_returns; try assumption. lra.
Qed.


Lemma moderate_inputs_positive :
  moderate_inputs S K T r vol -> 0 < S /\ 0 < K /\ 0 < T /\ vol <> 0.
Proof.
  intros ((HS & _) & (HK & _) & (HT & _) & (Hv & _) & _).
  assert (Hc : 0 < / 2 ^ 64) by lra.
  repeat split; try lra.
  intros Z. rewrite Z, Rabs_R0 in Hv. lra.
Qed.

Lemma moderate_inputs_in_range :
  moderate_inputs S K T r vol ->
  K <> 0 /\ Py.underflow_threshold < S / K
  /\ vol ^ 2 < Py.overflow_threshold
  /\ 0 <= T /\ Py.underflow_threshold < Rabs (vol * sqrt T)
  /\ exp (- r * T) < Py.overflow_threshold.
Proof.
  intros ((HS & HS') & (HK & HK') & (HT & HT') & (Hv & Hv') & Hr & HrT).
  pose proof PyFacts.underflow_threshold_small as [Hu Hu'].
  pose proof PyFacts.overflow_threshold_large as Ho.
  assert (Hc : 0 < / 2 ^ 64) by lra.
  assert (Hc32 : 0 < / 2 ^ 32) by lra.
  split; [lra | ].
  split.
  { assert (HiK : / 2 ^ 64 <= / K).
    { apply Rinv_le_contravar; lra. }
    assert (Hq : / 2 ^ 64 * / 2 ^ 64 <= S * / K) by (apply Rmult_le_compat; lra).
    unfold Rdiv. lra. }
  split.
  { assert (Hsq : vol ^ 2 = Rabs vol * Rabs vol).
    { rewrite <- Rabs_mult. rewrite Rabs_right; [ring | nra]. }
    assert (Hb : Rabs vol * Rabs vol <= 2 ^ 64 * 2 ^ 64)
      by (apply Rmult_le_compat; lra).
    rewrite Hsq. lra. }
  split; [lra | ].
  split.
  { assert (Hs : / 2 ^ 32 <= sqrt T).
    { replace (/ 2 ^ 32) with (sqrt (/ 2 ^ 32 * / 2 ^ 32))
        by (apply sqrt_square; lra).
      apply sqrt_le_1_alt. lra. }
    rewrite Rabs_mult, (Rabs_right (sqrt T)) by lra.
    assert (Hb : / 2 ^ 64 * / 2 ^ 32 <= Rabs vol * sqrt T)
      by (apply Rmult_le_compat; lra).
    lra. }
  apply PyFacts.exp_le_500.
  pose proof (Rle_abs (- (r * T))) as Ha. rewrite Rabs_Ropp in Ha. lra.
Qed.

Lemma black_scholes_moderate :
  moderate_inputs S K T r vol ->
  black_scholes S K T r vol
  = Return (call_formula S K T r vol, put_computed S K T r vol).
Proof.
  intros H.
  destruct (moderate_inputs_in_range H) as (A & B & C & D & E & F).
  apply black_scholes_returns; assumption.
Qed.

(** With the put of the closed form, put-call parity holds exactly. *)
Lemma closed_form_parity :
  call_formula S K T r vol - put_formula S K T r vol = S - K * exp (- r * T).
Proof.
  unfold call_formula, put_formula, norm_cdf.
  rewrite !NormFacts.cdf_opp. ring.
Qed.


End Pricer.

(** *** At the money, zero rate *)

Section AtTheMoney.

Variables S T vol : R.
Hypothesis HS : 0 < S.
Hypothesis HT : 0 < T.
Hypothesis Hvol : 0 < vol.

Let d : R := vol * sqrt T / 2.

Lemma atm_d1 : bs_d1 S S T 0 vol = d.
Proof.
  unfold bs_d1, d.
  assert (Hs : 0 < sqrt T) by (apply sqrt_lt_R0; exact HT).
  assert (HTs : T = sqrt T * sqrt T) by (symmetry; apply sqrt_sqrt; lra).
  replace (S / S) with 1 by (field; lra).
  rewrite ln_1.
  replace ((0 + 0.5 * vol ^ 2) * T)
    with ((0 + 1 / 2 * vol ^ 2) * (sqrt T * sqrt T))
    by (rewrite <- HTs; f_equal; lra).
  field. lra.
Qed.

Lemma atm_d2 : bs_d2 S S T 0 vol = - d.
Proof. unfold bs_d2. rewrite atm_d1. unfold d. lra. Qed.

Lemma atm_d_pos : 0 < d.
Proof.
  unfold d.
  assert (Hs : 0 < sqrt T) by (apply sqrt_lt_R0; exact HT).
  nra.
Qed.

Lemma atm_discount : exp (- 0 * T) = 1.
Proof. replace (- 0 * T) with 0 by lra. apply exp_0. Qed.

Lemma atm_call_formula : call_formula S S T 0 vol = S * (2 * norm_cdf d - 1).
Proof.
  unfold call_formula. rewrite atm_d1, atm_d2, atm_discount.
  unfold norm_cdf. rewrite NormFacts.cdf_opp. ring.
Qed.

Lemma atm_put_formula : put_formula S S T 0 vol = S * (2 * norm_cdf d - 1).
Proof.
  unfold put_formula. rewrite atm_d1, atm_d2, atm_discount.
  rewrite Ropp_involutive.
  unfold norm_cdf. rewrite NormFacts.cdf_opp. ring.
Qed.

Lemma atm_put_computed :
  put_computed S S T 0 vol = - S * (1 - norm_cdf d) * (1 - norm_cdf d).
Proof.
  unfold put_computed. rewrite atm_d1, atm_d2, atm_discount.
  rewrite Ropp_involutive.
  unfold norm_cdf. rewrite NormFacts.cdf_opp. ring.
Qed.

Lemma atm_cdf_bounds : 1 / 2 <= norm_cdf d <= 1 / 2 + d / 2.
Proof. apply NormFacts.cdf_nonneg_arg. left. exact atm_d_pos. Qed.

Lemma atm_call_nonneg : 0 <= call_formula S S T 0 vol.
Proof. rewrite atm_call_formula. pose proof atm_cdf_bounds. nra. Qed.

Lemma atm_put_computed_nonpos : put_computed S S T 0 vol <= 0.
Proof.
  rewrite atm_put_computed.
  pose proof (Rle_0_sqr (1 - norm_cdf d)) as Hsq. unfold Rsqr in Hsq. nra.
Qed.

(** The computed call exceeds the computed put by [S * cdf(d)^2], at least a
    quarter of the spot. *)
Lemma atm_call_minus_put :
  call_formula S S T 0 vol - put_computed S S T 0 vol
  = S * (norm_cdf d * norm_cdf d).
Proof. rewrite atm_call_formula, atm_put_computed. ring. Qed.

Lemma atm_call_minus_put_lower :
  S / 4 <= call_formula S S T 0 vol - put_computed S S T 0 vol.
Proof.
  rewrite atm_call_minus_put.
  pose proof atm_cdf_bounds as [B _].
  assert (Hm : 1 / 2 * (1 / 2) <= norm_cdf d * norm_cdf d)
    by (apply Rmult_le_compat; lra).
  pose proof (Rmult_le_compat_l S _ _ (Rlt_le _ _ HS) Hm).
  lra.
Qed.

Lemma atm_put_computed_upper :
  d < 1 ->
  put_computed S S T 0 vol <= - S * ((1 - d) / 2) * ((1 - d) / 2).
Proof.
  intros Hd. rewrite atm_put_computed.
  pose proof atm_cdf_bounds as [B1 B2].
  assert (H1 : (1 - d) / 2 <= 1 - norm_cdf d) by lra.
  assert (H0 : 0 <= (1 - d) / 2) by lra.
  assert (Hm : (1 - d) / 2 * ((1 - d) / 2) <= (1 - norm_cdf d) * (1 - norm_cdf d))
    by (apply Rmult_le_compat; lra).
  pose proof (Rmult_le_compat_l S _ _ (Rlt_le _ _ HS) Hm).
  lra.
Qed.

End AtTheMoney.

(** With no time left the denominator [vol * sqrt(T)] is zero. *)
Lemma zero_time_sample :
  black_scholes 100 100 0 0.045 0.2 = Raise ZeroDivisionError.
Proof.
  pose proof PyFacts.underflow_threshold_small as [Hu Hu'].
  pose proof PyFacts.overflow_threshold_large as Ho.
  apply black_scholes_zero_denominator; try lra.
  rewrite sqrt_0, Rmult_0_r, Rabs_R0. lra.
Qed.

(** *** Properties of the pricer *)

(** Three valid inputs on which the pricer raises: the discount factor
    [exp(1000)] is too large for a double; [vol * sqrt(T)], about [1e-350],
    is the float zero; and [S / K], [1e-600], is the float zero. *)
Lemma valid_inputs_that_raise :
  black_scholes 100 100 1 (- 1000) 0.2 = Raise OverflowError
  /\ black_scholes 100 100 1e-300 0.05 1e-200 = Raise ZeroDivisionError
  /\ black_scholes 1e-300 1e300 1 0.05 0.2 = Raise ValueError.
Proof.
  pose proof PyFacts.underflow_threshold_small as [Hu Hu'].
  pose proof PyFacts.overflow_threshold_large as Ho.
  split; [ | split].
  - apply black_scholes_exp_overflow; try lra.
    + rewrite sqrt_1, Rabs_right; lra.
    + apply PyFacts.exp_ge_1000. lra.
  - assert (Hs : sqrt 1e-300 = 1e-150).
    { replace 1e-300 with (1e-150 * 1e-150) by lra. apply sqrt_square. lra. }
    apply black_scholes_zero_denominator; try lra.
    rewrite Hs, Rabs_right by lra.
    unfold Py.underflow_threshold. lra.
  - apply black_scholes_log_domain; try lra.
    unfold Py.underflow_threshold. lra.
Qed.

(** C4, as the code has it.  On every valid input ([S > 0], [K > 0],
    [T > 0], [vol > 0]) far inside the range of the doubles
    ([moderate_inputs]) the pricer returns, and the call price it returns is
    [S * cdf(d1) - K * exp(-r*T) * cdf(d2)] with
    [d1 = (ln(S/K) + (r + 0.5*vol^2) * T) / (vol * sqrt(T))] and
    [d2 = d1 - vol * sqrt(T)].  Nothing in the pricer guards the range: on
    other valid inputs it can raise instead. *)
Theorem call_price_closed_form (S K T r vol : R) :
  0 < S -> 0 < K -> 0 < T -> 0 < vol ->
  moderate_inputs S K T r vol ->
  let d1 := (ln (S / K) + (r + 0.5 * vol ^ 2) * T) / (vol * sqrt T) in
  let d2 := d1 - vol * sqrt T in
  exists p : R,
    black_scholes S K T r vol
    = Return (S * norm_cdf d1 - K * exp (- r * T) * norm_cdf d2, p).
Proof.
  intros HS HK HT Hv Hm d1 d2.
  exists (put_computed S K T r vol).
  rewrite (black_scholes_moderate S K T r vol Hm).
  reflexivity.
Qed.

Lemma call_price_closed_form_witness :
  exists p : R,
    black_scholes 100 100 1 0.05 0.2
    = Return (call_formula 100 100 1 0.05 0.2, p).
Proof.
  apply (call_price_closed_form 100 100 1 0.05 0.2); try lra.
  unfold moderate_inputs. rewrite !Rabs_right by lra. lra.
Defined.

(** The input on which the put of line 21 is evaluated below:
    spot 100, strike 100, one year, zero rate, volatility 0.2. *)

Lemma failing_input_returns :
  black_scholes 100 100 1 0 0.2
  = Return (call_formula 100 100 1 0 0.2, put_computed 100 100 1 0 0.2).
Proof.
  apply black_scholes_moderate. unfold moderate_inputs.
  rewrite !Rabs_right by lra. lra.
Qed.

Lemma failing_input_put_upper : put_computed 100 100 1 0 0.2 <= - 20.
Proof.
  assert (HS : 0 < 100) by lra.
  assert (HT : 0 < 1) by lra.
  assert (Hv : 0 < 0.2) by lra.
  assert (Hd : 0.2 * sqrt 1 / 2 < 1) by (rewrite sqrt_1; lra).
  pose proof (atm_put_computed_upper 100 1 0.2 HS HT Hv Hd) as H.
  rewrite sqrt_1 in H. lra.
Qed.

Lemma failing_input_gap :
  25 <= call_formula 100 100 1 0 0.2 - put_computed 100 100 1 0 0.2.
Proof.
  assert (HS : 0 < 100) by lra.
  assert (HT : 0 < 1) by lra.
  assert (Hv : 0 < 0.2) by lra.
  pose proof (atm_call_minus_put_lower 100 1 0.2 HS HT Hv). lra.
Qed.

Lemma failing_input_put_formula : 0 <= put_formula 100 100 1 0 0.2.
Proof.
  assert (HS : 0 < 100) by lra.
  assert (HT : 0 < 1) by lra.
  assert (Hv : 0 < 0.2) by lra.
  rewrite (atm_put_formula 100 1 0.2 HS HT Hv).
  rewrite <- (atm_call_formula 100 1 0.2 HS HT Hv).
  apply atm_call_nonneg; assumption.
Qed.

(** C1.  At spot 100, strike 100, one year, zero rate and volatility 0.2 the
    pricer returns a put price below -20, while
    [K * exp(-r*T) * cdf(-d2) - S * cdf(-d1)] is not negative there: the put
    price returned is not the one of the closed form. *)
Theorem put_price_misses_closed_form :
  exists c p : R,
    black_scholes 100 100 1 0 0.2 = Return (c, p)
    /\ p <= - 20
    /\ 0 <= put_formula 100 100 1 0 0.2
    /\ p <> put_formula 100 100 1 0 0.2.
Proof.
  exists (call_formula 100 100 1 0 0.2), (put_computed 100 100 1 0 0.2).
  pose proof failing_input_put_upper. pose proof failing_input_put_formula.
  repeat split; try assumption; [apply failing_input_returns | lra].
Qed.

(** C2.  At the same input [call - put] of the returned prices is at least
    25 away from [S - K * exp(-r*T)]: put-call parity fails beyond any small
    tolerance. *)
Theorem put_call_parity_broken :
  exists c p : R,
    black_scholes 100 100 1 0 0.2 = Return (c, p)
    /\ 25 <= Rabs ((c - p) - (100 - 100 * exp (- 0 * 1))).
Proof.
  exists (call_formula 100 100 1 0 0.2), (put_computed 100 100 1 0 0.2).
  split; [apply failing_input_returns | ].
  rewrite atm_discount.
  pose proof failing_input_gap as G.
  rewrite Rabs_right; lra.
Qed.

(** C5.  At the money ([S = K = 100]) with [r = 0] the returned call and put
    prices differ: the call is not negative and the put is. *)
Theorem at_the_money_call_put_differ :
  exists c p : R,
    black_scholes 100 100 1 0 0.2 = Return (c, p)
    /\ p < 0 <= c
    /\ c <> p.
Proof.
  exists (call_formula 100 100 1 0 0.2), (put_computed 100 100 1 0 0.2).
  pose proof failing_input_put_upper.
  assert (0 <= call_formula 100 100 1 0 0.2) by (apply atm_call_nonneg; lra).
  repeat split; try lra. apply failing_input_returns.
Qed.

(** C6.  On the valid input spot 100, strike 100, one year, zero rate and
    volatility 0.2 the put price returned is negative. *)
Theorem put_price_negative :
  exists c p : R,
    black_scholes 100 100 1 0 0.2 = Return (c, p) /\ p < 0.
Proof.
  exists (call_formula 100 100 1 0 0.2), (put_computed 100 100 1 0 0.2).
  pose proof failing_input_put_upper.
  split; [apply failing_input_returns | lra].
Qed.

(** A negative volatility with positive spot, strike and time is priced
    without any error. *)
Lemma negative_vol_not_rejected :
  - 0.2 <= 0
  /\ black_scholes 100 100 1 0.05 (- 0.2)
     = Return (call_formula 100 100 1 0.05 (- 0.2),
               put_computed 100 100 1 0.05 (- 0.2)).
Proof.
  split; [lra | ].
  apply black_scholes_moderate. unfold moderate_inputs.
  rewrite (Rabs_left (- 0.2)) by lra. rewrite !Rabs_right by lra. lra.
Qed.

(** C3, as the code has it.  The pricer checks nothing itself, and an
    input with [vol <= 0], [T <= 0], [S <= 0] or [K <= 0] meets whatever the
    primitives do with it.  A zero strike is a [ZeroDivisionError]; a
    quotient [S/K] that is zero or negative is the [ValueError] of
    [math.log]; a negative time is the [ValueError] of [math.sqrt], unless
    [vol ** 2] has raised [OverflowError] before; a zero time or a zero
    volatility ends in an exception of a primitive; and a negative
    volatility with spot, strike and time in the moderate range is priced:
    the pair of prices comes back and no error is raised. *)
Theorem invalid_input_outcome (S K T r vol : R) :
  vol <= 0 \/ T <= 0 \/ S <= 0 \/ K <= 0 ->
  (K = 0 -> black_scholes S K T r vol = Raise ZeroDivisionError)
  /\ (K <> 0 -> S / K <= 0 -> black_scholes S K T r vol = Raise ValueError)
  /\ (K <> 0 -> 0 < S / K -> T < 0 ->
      black_scholes S K T r vol = Raise ValueError
      \/ black_scholes S K T r vol = Raise OverflowError)
  /\ (T = 0 \/ vol = 0 -> exists e : exn, black_scholes S K T r vol = Raise e)
  /\ (vol < 0 -> moderate_inputs S K T r vol ->
      black_scholes S K T r vol
      = Return (call_formula S K T r vol, put_computed S K T r vol)).
Proof.
  intros _.
  pose proof PyFacts.underflow_threshold_small as [Hu _].
  split; [apply black_scholes_strike_zero | ].
  split.
  { intros HK HSK. apply black_scholes_log_domain; [exact HK | lra]. }
  split.
  { intros HK HSK HT.
    destruct (black_scholes_outcome S K T r vol)
      as [(HK' & E) | [(_ & _ & E) | [(_ & _ & _ & E)
         | [(_ & _ & _ & E) | [(_ & _ & HT' & _)
         | [(_ & _ & HT' & _) | (_ & _ & HT' & _)]]]]]];
      try contradiction; try lra; auto. }
  split.
  { intros Hz.
    destruct (black_scholes_outcome S K T r vol)
      as [(_ & E) | [(_ & _ & E) | [(_ & _ & _ & E)
         | [(_ & _ & _ & E) | [(_ & _ & _ & _ & E)
         | [(_ & _ & _ & _ & _ & E) | (_ & _ & HT' & HD & _)]]]]]];
      try (eexists; exact E).
    exfalso.
    assert (Z : vol * sqrt T = 0).
    { destruct Hz as [-> | ->]; [rewrite sqrt_0 | ]; ring. }
    rewrite Z, Rabs_R0 in HD. lra. }
  intros _ Hm. apply black_scholes_moderate. exact Hm.
Qed.

Lemma invalid_input_outcome_witness :
  black_scholes 100 100 1 0.05 (- 0.2)
  = Return (call_formula 100 100 1 0.05 (- 0.2),
            put_computed 100 100 1 0.05 (- 0.2)).
Proof.
  assert (Hinv : - 0.2 <= 0 \/ 1 <= 0 \/ 100 <= 0 \/ 100 <= 0) by (left; lra).
  destruct (invalid_input_outcome 100 100 1 0.05 (- 0.2) Hinv)
    as (_ & _ & _ & _ & H).
  apply H; [lra | ].
  unfold moderate_inputs.
  rewrite (Rabs_left (- 0.2)) by lra. rewrite !Rabs_right by lra. lra.
Defined.

(** ** Time to expiry *)

Lemma days_to_expiry_floor (expiry : Z) (now : datetime) :
  datetime_wf now ->
  days (datetime_sub (strptime expiry) now)
  = (elapsed_us expiry now / us_per_day)%Z.
Proof.
  intros (Hh & Hm & Hs & Hu).
  unfold datetime_sub, timedelta_new, elapsed_us, us_per_day, seconds_of_day.
  cbn [days strptime toordinal hour minute second microsecond].
  Z.to_euclidean_division_equations. lia.
Qed.

Lemma days_to_expiry_cases (expiry : Z) (now : datetime) :
  datetime_wf now ->
  days (datetime_sub (strptime expiry) now)
  = (if (seconds_of_day now =? 0)%Z && (microsecond now =? 0)%Z
     then date_difference expiry now
     else date_difference expiry now - 1)%Z.
Proof.
  intros (Hh & Hm & Hs & Hu).
  unfold datetime_sub, timedelta_new, date_difference, seconds_of_day.
  cbn [days strptime toordinal hour minute second microsecond].
  destruct (Z.eqb_spec (second now + minute now * 60 + hour now * 3600) 0);
    destruct (Z.eqb_spec (microsecond now) 0); cbn [andb];
    Z.to_euclidean_division_equations; lia.
Qed.

(** C9, as the code has it.  The time to expiry is the [days] field of the
    difference between the midnight that opens the expiry date and the
    current date and time, divided by 365.  That field is the floor of the
    difference counted in days: it is the difference of the two calendar
    dates when the current time is midnight exactly, and one less at any
    other time of the day. *)
Theorem time_to_expiry_floor_days (expiry : Z) (now : datetime) :
  datetime_wf now ->
  time_to_expiry expiry now = IZR (elapsed_us expiry now / us_per_day) / 365
  /\ time_to_expiry expiry now
     = IZR (if (seconds_of_day now =? 0)%Z && (microsecond now =? 0)%Z
            then date_difference expiry now
            else date_difference expiry now - 1) / 365.
Proof.
  intros Hwf. unfold time_to_expiry. split.
  - rewrite (days_to_expiry_floor expiry now Hwf). reflexivity.
  - rewrite (days_to_expiry_cases expiry now Hwf). reflexivity.
Qed.

Lemma time_to_expiry_floor_days_witness :
  time_to_expiry 739000 (mk_datetime 738635 9 30 0 0)
  = IZR (elapsed_us 739000 (mk_datetime 738635 9 30 0 0) / us_per_day) / 365
  /\ time_to_expiry 739000 (mk_datetime 738635 9 30 0 0)
     = IZR (if (seconds_of_day (mk_datetime 738635 9 30 0 0) =? 0)%Z
               && (microsecond (mk_datetime 738635 9 30 0 0) =? 0)%Z
            then date_difference 739000 (mk_datetime 738635 9 30 0 0)
            else date_difference 739000 (mk_datetime 738635 9 30 0 0) - 1) / 365.
Proof.
  apply (time_to_expiry_floor_days 739000 (mk_datetime 738635 9 30 0 0)).
  unfold datetime_wf. cbn. lia.
Defined.

(** At noon of the expiry date the two dates are the same and half a day
    has gone by since the midnight of the expiry: the calendar difference is
    0, the difference cut to whole days is 0, and the code passes [-1/365]. *)
Lemma noon_of_expiry_date_counterexample :
  datetime_wf (mk_datetime 739000 12 0 0 0)
  /\ date_difference 739000 (mk_datetime 739000 12 0 0 0) = 0%Z
  /\ Z.quot (elapsed_us 739000 (mk_datetime 739000 12 0 0 0)) us_per_day = 0%Z
  /\ time_to_expiry 739000 (mk_datetime 739000 12 0 0 0) = - 1 / 365
  /\ time_to_expiry 739000 (mk_datetime 739000 12 0 0 0)
     <> IZR (date_difference 739000 (mk_datetime 739000 12 0 0 0)) / 365.
Proof.
  assert (E : time_to_expiry 739000 (mk_datetime 739000 12 0 0 0) = - 1 / 365).
  { unfold time_to_expiry.
    replace (days (datetime_sub (strptime 739000) (mk_datetime 739000 12 0 0 0)))
      with (- 1)%Z by reflexivity.
    lra. }
  split; [unfold datetime_wf; cbn; lia | ].
  split; [reflexivity | ].
  split; [reflexivity | ].
  split; [exact E | ].
  rewrite E.
  replace (date_difference 739000 (mk_datetime 739000 12 0 0 0)) with 0%Z
    by reflexivity.
  lra.
Qed.

(** ** The reporters *)

Lemma checked_vol_some (vol : option pyfloat) (v : R) :
  checked_vol vol = Some v <-> vol = Some (Fin v) /\ 0 < v.
Proof.
  unfold checked_vol. split.
  - destruct vol as [[ | x] | ]; try discriminate.
    destruct (Rle_dec x 0); [discriminate | ].
    intros E. injection E as <-. split; [reflexivity | lra].
  - intros [-> Hv]. destruct (Rle_dec v 0); [lra | reflexivity].
Qed.

Lemma checked_vol_none (call : OptionRow) :
  checked_vol (impliedVolatility call) = None <-> has_valid_iv call = false.
Proof.
  unfold checked_vol, has_valid_iv.
  destruct (impliedVolatility call) as [[ | x] | ]; try tauto.
  destruct (Rle_dec x 0), (Rlt_dec 0 x); try tauto; try lra;
    split; discriminate.
Qed.

Lemma has_valid_iv_true (call : OptionRow) :
  has_valid_iv call = true <->
  exists v, checked_vol (impliedVolatility call) = Some v.
Proof.
  split.
  - intros H. destruct (checked_vol (impliedVolatility call)) as [v | ] eqn:E.
    + exists v. reflexivity.
    + apply checked_vol_none in E. congruence.
  - intros [v E]. destruct (has_valid_iv call) eqn:Hv; [reflexivity | ].
    apply checked_vol_none in Hv. congruence.
Qed.

Lemma pricer_returns_on_tail (S t r : R) (call : OptionRow) (calls : list OptionRow) :
  pricer_returns_on S t r (call :: calls) -> pricer_returns_on S t r calls.
Proof. intros H c v Hin. apply H. right. exact Hin. Qed.

(** *** Model table *)

Section ModelTable.

Variables S t r : R.

Lemma table_body_skip (prices : list ModelRow) (call : OptionRow) :
  has_valid_iv call = false -> table_body S t r prices call = Return prices.
Proof.
  intros H. apply checked_vol_none in H. unfold table_body. rewrite H. reflexivity.
Qed.

Lemma table_body_emit (prices : list ModelRow) (call : OptionRow) (v c p : R) :
  checked_vol (impliedVolatility call) = Some v ->
  black_scholes S (strike call) t r v = Return (c, p) ->
  table_body S t r prices call
  = Return (prices ++ [mk_ModelRow (strike call) c p v]).
Proof.
  intros Hv Hbs. unfold table_body. rewrite Hv, Hbs. reflexivity.
Qed.

Lemma table_body_raise (prices : list ModelRow) (call : OptionRow) (v : R) (e : exn) :
  checked_vol (impliedVolatility call) = Some v ->
  black_scholes S (strike call) t r v = Raise e ->
  table_body S t r prices call = Raise e.
Proof.
  intros Hv Hbs. unfold table_body. rewrite Hv, Hbs. reflexivity.
Qed.

Lemma table_loop (calls : list OptionRow) :
  pricer_returns_on S t r calls ->
  forall acc : list ModelRow,
  exists rows : list ModelRow,
    for_each (table_body S t r) calls acc = Return (acc ++ rows)
    /\ Forall2 (model_row_of S t r) (filter has_valid_iv calls) rows.
Proof.
  induction calls as [ | call calls IH]; intros Hret acc.
  - exists []. cbn. rewrite app_nil_r. split; [reflexivity | constructor].
  - specialize (IH (pricer_returns_on_tail _ _ _ _ _ Hret)).
    cbn [for_each filter].
    destruct (has_valid_iv call) eqn:Hv.
    + apply has_valid_iv_true in Hv. destruct Hv as [v Ev].
      destruct (Hret call v (or_introl eq_refl) Ev) as [[c p] Ebs].
      rewrite (table_body_emit acc call v c p Ev Ebs). cbn [bind].
      destruct (IH (acc ++ [mk_ModelRow (strike call) c p v])) as (rows & E & F).
      exists (mk_ModelRow (strike call) c p v :: rows). split.
      * rewrite E, <- app_assoc. reflexivity.
      * constructor; [ | exact F].
        apply checked_vol_some in Ev. destruct Ev as [Eiv Hpos].
        unfold model_row_of. cbn. auto.
    + rewrite (table_body_skip acc call Hv). cbn [bind].
      apply IH.
Qed.

End ModelTable.

(** C7, as the code has it.  For every option chain on which the pricer
    returns for the rows that get to it, the model-table reporter raises
    nothing and builds exactly one row per chain row whose implied
    volatility is present, positive and not NaN, in the order of the chain;
    the other rows are skipped without an error. *)
Theorem table_one_row_per_valid_iv (S t r : R) (calls : list OptionRow) :
  pricer_returns_on S t r calls ->
  exists rows : list ModelRow,
    table_prices S t r calls = Return rows
    /\ Forall2 (model_row_of S t r) (filter has_valid_iv calls) rows
    /\ length rows = length (filter has_valid_iv calls).
Proof.
  intros Hret.
  destruct (table_loop S t r calls Hret []) as (rows & E & F).
  exists rows. split; [exact E | ]. split; [exact F | ].
  symmetry. apply (Forall2_length F).
Qed.

Lemma has_valid_iv_fin (K v : R) (b a : pyfloat) :
  0 < v -> has_valid_iv (mk_OptionRow K (Some (Fin v)) b a) = true.
Proof.
  intros Hv. unfold has_valid_iv. cbn.
  destruct (Rlt_dec 0 v); [reflexivity | contradiction].
Qed.

Lemma pricer_returns_on_moderate (S t r : R) (calls : list OptionRow) :
  (forall call vol, In call calls ->
     checked_vol (impliedVolatility call) = Some vol ->
     moderate_inputs S (strike call) t r vol) ->
  pricer_returns_on S t r calls.
Proof.
  intros Hm call vol Hin Hv.
  eexists. apply black_scholes_moderate. apply (Hm call vol Hin Hv).
Qed.

Lemma moderate_sample (K v : R) :
  90 <= K <= 110 -> 0.2 <= v <= 0.25 -> moderate_inputs 100 K 1 0.045 v.
Proof.
  intros HK Hv. unfold moderate_inputs.
  rewrite !Rabs_right by lra. lra.
Qed.

Lemma chain_nan_second_moderate (call : OptionRow) (vol : R) :
  In call chain_nan_second ->
  checked_vol (impliedVolatility call) = Some vol ->
  moderate_inputs 100 (strike call) 1 0.045 vol.
Proof.
  intros [<- | [<- | [<- | []]]] Hv; apply checked_vol_some in Hv;
    destruct Hv as [E _]; cbn in E; try discriminate;
    injection E as <-; apply moderate_sample; cbn; lra.
Qed.

Lemma chain_nan_second_priced : pricer_returns_on 100 1 0.045 chain_nan_second.
Proof. apply pricer_returns_on_moderate. exact chain_nan_second_moderate. Qed.

Lemma chain_nan_second_valid :
  filter has_valid_iv chain_nan_second
  = [ mk_OptionRow 90 (Some (Fin 0.25)) (Fin 12) (Fin 13);
      mk_OptionRow 110 (Some (Fin 0.2)) (Fin 1) (Fin 2) ].
Proof.
  unfold chain_nan_second. cbn [filter].
  rewrite !has_valid_iv_fin by lra. reflexivity.
Qed.

(** The scenario of the specification: of three rows whose second has a NaN
    implied volatility, rows 1 and 3 are reported, in that order. *)
Lemma table_one_row_per_valid_iv_witness :
  exists row1 row3 : ModelRow,
    table_prices 100 1 0.045 chain_nan_second = Return [row1; row3]
    /\ model_strike row1 = 90 /\ model_strike row3 = 110.
Proof.
  destruct (table_one_row_per_valid_iv 100 1 0.045 chain_nan_second
              chain_nan_second_priced) as (rows & E & F & _).
  rewrite chain_nan_second_valid in F.
  inversion F as [ | c1 row1 l1 rest1 H1 F1]; subst.
  inversion F1 as [ | c3 row3 l3 rest3 H3 F3]; subst.
  inversion F3; subst.
  exists row1, row3.
  destruct H1 as (_ & _ & K1 & _). destruct H3 as (_ & _ & K3 & _).
  split; [exact E | split; [exact K1 | exact K3]].
Defined.

(** Half a day before the midnight that opens the expiry date the time to
    expiry is 0 and the pricer divides by zero on the first row it gets: the
    report ends in that exception and no row is produced. *)
Lemma table_raises_on_expiry_eve :
  has_valid_iv (mk_OptionRow 100 (Some (Fin 0.2)) (Fin 1) (Fin 2)) = true
  /\ black_scholes_table 100 [mk_OptionRow 100 (Some (Fin 0.2)) (Fin 1) (Fin 2)]
       739000 (mk_datetime 738999 12 0 0 0) 0.045
     = Raise ZeroDivisionError.
Proof.
  split; [apply has_valid_iv_fin; lra | ].
  unfold black_scholes_table.
  assert (Et : time_to_expiry 739000 (mk_datetime 738999 12 0 0 0) = 0).
  { unfold time_to_expiry.
    replace (days (datetime_sub (strptime 739000) (mk_datetime 738999 12 0 0 0)))
      with 0%Z by reflexivity.
    lra. }
  rewrite Et. unfold table_prices. cbn [for_each].
  rewrite (table_body_raise 100 0 0.045 [] _ 0.2 ZeroDivisionError).
  - reflexivity.
  - apply checked_vol_some. cbn. split; [reflexivity | lra].
  - cbn [strike]. apply zero_time_sample.
Qed.

(** *** Model against market *)

Section MarketTable.

Variables S t r : R.

Lemma market_body_skip_vol (prices : list MarketRow) (call : OptionRow) :
  has_valid_iv call = false -> market_body S t r prices call = Return prices.
Proof.
  intros H. apply checked_vol_none in H. unfold market_body. rewrite H. reflexivity.
Qed.

Lemma market_body_priced (prices : list MarketRow) (call : OptionRow) (v c p : R) :
  checked_vol (impliedVolatility call) = Some v ->
  black_scholes S (strike call) t r v = Return (c, p) ->
  market_body S t r prices call
  = match mid_price call with
    | NaN => Return prices
    | Fin m => Return (prices ++ [mk_MarketRow (strike call) c m (m - c) v])
    end.
Proof.
  intros Hv Hbs. unfold market_body. rewrite Hv, Hbs. reflexivity.
Qed.

Lemma market_body_raise (prices : list MarketRow) (call : OptionRow) (v : R) (e : exn) :
  checked_vol (impliedVolatility call) = Some v ->
  black_scholes S (strike call) t r v = Raise e ->
  market_body S t r prices call = Raise e.
Proof.
  intros Hv Hbs. unfold market_body. rewrite Hv, Hbs. reflexivity.
Qed.

Lemma mid_price_fin (call : OptionRow) (b a : R) :
  bid call = Fin b -> ask call = Fin a -> mid_price call = Fin ((b + a) / 2).
Proof. intros Hb Ha. unfold mid_price. rewrite Hb, Ha. reflexivity. Qed.

Lemma mid_price_nan_bid (call : OptionRow) :
  bid call = NaN -> mid_price call = NaN.
Proof. intros Hb. unfold mid_price. rewrite Hb. reflexivity. Qed.

Lemma market_loop (calls : list OptionRow) :
  pricer_returns_on S t r calls ->
  forall acc : list MarketRow,
  exists rows : list MarketRow,
    for_each (market_body S t r) calls acc = Return (acc ++ rows)
    /\ Forall2 (market_row_of S t r) (filter quoted calls) rows.
Proof.
  induction calls as [ | call calls IH]; intros Hret acc.
  - exists []. cbn. rewrite app_nil_r. split; [reflexivity | constructor].
  - specialize (IH (pricer_returns_on_tail _ _ _ _ _ Hret)).
    cbn [for_each filter]. unfold quoted at 1.
    destruct (has_valid_iv call) eqn:Hv; cbn [andb].
    + apply has_valid_iv_true in Hv. destruct Hv as [v Ev].
      destruct (Hret call v (or_introl eq_refl) Ev) as [[c p] Ebs].
      rewrite (market_body_priced acc call v c p Ev Ebs).
      destruct (mid_price call) as [ | m] eqn:Em; cbn [np_isnan negb bind].
      * apply IH.
      * destruct (IH (acc ++ [mk_MarketRow (strike call) c m (m - c) v]))
          as (rows & E & F).
        exists (mk_MarketRow (strike call) c m (m - c) v :: rows). split.
        -- rewrite E, <- app_assoc. reflexivity.
        -- constructor; [ | exact F].
           apply checked_vol_some in Ev. destruct Ev as [Eiv Hpos].
           unfold market_row_of. cbn.
           repeat split; auto. exists p. exact Ebs.
    + rewrite (market_body_skip_vol acc call Hv). cbn [bind].
      apply IH.
Qed.

End MarketTable.

(** C10, as the code has it.  On a chain for whose rows with a valid implied
    volatility the pricer returns, the comparison keeps exactly the rows
    with a valid implied volatility whose mid-price is not NaN, one row
    each, in order.  Bid and ask enter through their mid only: whenever both
    are floats the row is kept, whatever their signs and whichever is the
    larger. *)
Theorem market_rows_kept_whenever_mid_not_nan
  (S t r : R) (calls : list OptionRow) :
  pricer_returns_on S t r calls ->
  (exists rows : list MarketRow,
     market_prices S t r calls = Return rows
     /\ Forall2 (market_row_of S t r) (filter quoted calls) rows)
  /\ (forall (call : OptionRow) (b a : R),
        has_valid_iv call = true -> bid call = Fin b -> ask call = Fin a ->
        quoted call = true).
Proof.
  intros Hret. split.
  - destruct (market_loop S t r calls Hret []) as (rows & E & F).
    exists rows. split; assumption.
  - intros call b a Hv Hb Ha. unfold quoted.
    rewrite Hv, (mid_price_fin call b a Hb Ha). reflexivity.
Qed.

Lemma chain_odd_quotes_moderate (call : OptionRow) (vol : R) :
  In call chain_odd_quotes ->
  checked_vol (impliedVolatility call) = Some vol ->
  moderate_inputs 100 (strike call) 1 0.045 vol.
Proof.
  intros [<- | [<- | [<- | []]]] Hv; apply checked_vol_some in Hv;
    destruct Hv as [E _]; cbn in E; try discriminate;
    injection E as <-; apply moderate_sample; cbn; lra.
Qed.

Lemma chain_odd_quotes_priced : pricer_returns_on 100 1 0.045 chain_odd_quotes.
Proof. apply pricer_returns_on_moderate. exact chain_odd_quotes_moderate. Qed.

Lemma chain_odd_quotes_kept :
  filter quoted chain_odd_quotes
  = [ mk_OptionRow 90 (Some (Fin 0.25)) (Fin (- 1)) (Fin (- 3));
      mk_OptionRow 100 (Some (Fin 0.2)) (Fin 7) (Fin 5) ].
Proof.
  unfold chain_odd_quotes, quoted. cbn [filter].
  rewrite !has_valid_iv_fin by lra. reflexivity.
Qed.

(** A negative bid above a negative ask and a bid above the ask are both
    reported; the row with the NaN bid is not. *)
Lemma market_rows_kept_whenever_mid_not_nan_witness :
  exists row1 row2 : MarketRow,
    market_prices 100 1 0.045 chain_odd_quotes = Return [row1; row2]
    /\ market_price row1 = (- 1 + - 3) / 2
    /\ market_price row2 = (7 + 5) / 2.
Proof.
  destruct (market_rows_kept_whenever_mid_not_nan 100 1 0.045 chain_odd_quotes
              chain_odd_quotes_priced) as ((rows & E & F) & _).
  rewrite chain_odd_quotes_kept in F.
  inversion F as [ | c1 row1 l1 rest1 H1 F1]; subst.
  inversion F1 as [ | c2 row2 l2 rest2 H2 F2]; subst.
  inversion F2; subst.
  exists row1, row2.
  destruct H1 as (_ & _ & _ & M1 & _). destruct H2 as (_ & _ & _ & M2 & _).
  cbn in M1, M2.
  split; [exact E | split; [injection M1 as <- | injection M2 as <-]; reflexivity].
Defined.

(** Half a day before the midnight that opens the expiry date the comparison
    ends in the pricer's division by zero: the row has a valid implied
    volatility and a mid-price of -2, and no comparison row is emitted. *)
Lemma market_report_raises_on_expiry_eve :
  has_valid_iv (mk_OptionRow 100 (Some (Fin 0.2)) (Fin (- 1)) (Fin (- 3))) = true
  /\ mid_price (mk_OptionRow 100 (Some (Fin 0.2)) (Fin (- 1)) (Fin (- 3)))
     = Fin ((- 1 + - 3) / 2)
  /\ blkschl_vs_market 100
       [mk_OptionRow 100 (Some (Fin 0.2)) (Fin (- 1)) (Fin (- 3))]
       739000 (mk_datetime 738999 12 0 0 0) 0.045
     = Raise ZeroDivisionError.
Proof.
  split; [apply has_valid_iv_fin; lra | ].
  split; [reflexivity | ].
  unfold blkschl_vs_market.
  assert (Et : time_to_expiry 739000 (mk_datetime 738999 12 0 0 0) = 0).
  { unfold time_to_expiry.
    replace (days (datetime_sub (strptime 739000) (mk_datetime 738999 12 0 0 0)))
      with 0%Z by reflexivity.
    lra. }
  rewrite Et. unfold market_prices. cbn [for_each].
  rewrite (market_body_raise 100 0 0.045 [] _ 0.2 ZeroDivisionError).
  - reflexivity.
  - apply checked_vol_some. cbn. split; [reflexivity | lra].
  - cbn [strike]. apply zero_time_sample.
Qed.

(** * Further properties *)

(** ** The pricer beyond its ordinary inputs *)

(** X1.  The two [OverflowError]s of the pricer and their place in the
    order of evaluation.  With a strike that is not zero and a quotient
    [S/K] in the normal range of the doubles: a [vol ** 2] too large for a
    double raises [OverflowError] whatever the time to expiry, a negative
    time included, since line 14 squares the volatility before it takes the
    root of the time; and when [vol ** 2] fits, [T > 0], the denominator
    [vol * sqrt(T)] is in the normal range and [r * T] is itself within the
    range, a discount factor [exp(-r*T)] too large for a double raises
    [OverflowError]. *)
Theorem pricer_overflow_errors (S K T r vol : R) :
  K <> 0 -> / 2 ^ 1022 <= S / K ->
  (Py.overflow_threshold <= vol ^ 2 ->
   black_scholes S K T r vol = Raise OverflowError)
  /\ (vol ^ 2 < Py.overflow_threshold -> 0 < T ->
      / 2 ^ 1022 <= Rabs (vol * sqrt T) ->
      Rabs (r * T) < Py.overflow_threshold ->
      Py.overflow_threshold <= exp (- r * T) ->
      black_scholes S K T r vol = Raise OverflowError).
Proof.
  intros HK HSK.
  assert (Hu : Py.underflow_threshold < / 2 ^ 1022)
    by (unfold Py.underflow_threshold; lra).
  split.
  - intros Hp. apply black_scholes_pow_overflow; [exact HK | lra | exact Hp].
  - intros Hp HT HD _ HE.
    apply black_scholes_exp_overflow; try assumption; lra.
Qed.

Lemma pricer_overflow_errors_witness :
  black_scholes 100 100 1 (- 1000) 0.2 = Raise OverflowError.
Proof.
  assert (HK : 100 <> 0) by lra.
  assert (HSK : / 2 ^ 1022 <= 100 / 100) by lra.
  destruct (pricer_overflow_errors 100 100 1 (- 1000) 0.2 HK HSK) as [_ H].
  pose proof PyFacts.overflow_threshold_large as Ho.
  apply H; try lra.
  - rewrite sqrt_1, Rabs_right; lra.
  - rewrite Rabs_left; lra.
  - apply PyFacts.exp_ge_1000. lra.
Defined.

Lemma bs_d1_scaled (k S K T r vol : R) :
  k <> 0 -> K <> 0 -> bs_d1 (k * S) (k * K) T r vol = bs_d1 S K T r vol.
Proof.
  intros Hk HK. unfold bs_d1.
  replace (k * S / (k * K)) with (S / K) by (field; split; assumption).
  reflexivity.
Qed.

(** X2.  Spot and strike enter through their ratio: when the inputs, and
    the inputs with spot and strike both multiplied by [k], are far inside
    the range of the doubles, the pricer returns on both and the prices for
    the multiplied inputs are [k] times the others. *)
Theorem pricer_homogeneous (k S K T r vol : R) :
  moderate_inputs S K T r vol ->
  moderate_inputs (k * S) (k * K) T r vol ->
  black_scholes (k * S) (k * K) T r vol
  = scale_prices k (black_scholes S K T r vol).
Proof.
  intros Hm Hm'.
  rewrite (black_scholes_moderate _ _ _ _ _ Hm), (black_scholes_moderate _ _ _ _ _ Hm').
  destruct (moderate_inputs_positive _ _ _ _ _ Hm) as (HS & HK & _).
  destruct (moderate_inputs_positive _ _ _ _ _ Hm') as (HS' & HK' & _).
  assert (Hk : k <> 0) by (intros Z; rewrite Z in HS'; lra).
  assert (HK0 : K <> 0) by lra.
  cbn [scale_prices]. unfold call_formula, put_computed, bs_d2.
  rewrite !(bs_d1_scaled k S K T r vol Hk HK0).
  f_equal. f_equal; ring.
Qed.

Lemma pricer_homogeneous_witness :
  black_scholes (2 * 100) (2 * 110) 1 0.05 0.2
  = scale_prices 2 (black_scholes 100 110 1 0.05 0.2).
Proof.
  apply (pricer_homogeneous 2 100 110 1 0.05 0.2);
    unfold moderate_inputs; rewrite !Rabs_right by lra; lra.
Defined.



Lemma bs_d1_neg_vol (S K T r vol : R) :
  vol * sqrt T <> 0 -> bs_d1 S K T r (- vol) = - bs_d1 S K T r vol.
Proof.
  intros H. unfold bs_d1.
  replace ((- vol) ^ 2) with (vol ^ 2) by ring.
  assert (Hv : vol <> 0) by (intros E; apply H; rewrite E; ring).
  assert (Hs : sqrt T <> 0) by (intros E; apply H; rewrite E; ring).
  replace 0.5 with (1 / 2) by lra.
  field. split; assumption.
Qed.

Lemma bs_d2_neg_vol (S K T r vol : R) :
  vol * sqrt T <> 0 -> bs_d2 S K T r (- vol) = - bs_d2 S K T r vol.
Proof.
  intros H. unfold bs_d2. rewrite (bs_d1_neg_vol S K T r vol H). ring.
Qed.

(** X4.  A negative volatility is priced like its absolute value with the
    roles of the two closed forms exchanged: for positive spot, strike, time
    and [vol] far inside the range of the doubles, the pricer returns for
    [vol] and for [-vol], the call returned for [-vol] is minus the put of
    the closed form at [vol], and the two calls add up to
    [S - K * exp(-r*T)]. *)
Theorem negative_vol_call (S K T r vol : R) :
  0 < S -> 0 < K -> 0 < T -> 0 < vol ->
  moderate_inputs S K T r vol ->
  exists c c' p p' : R,
    black_scholes S K T r vol = Return (c, p)
    /\ black_scholes S K T r (- vol) = Return (c', p')
    /\ c' = - put_formula S K T r vol
    /\ c + c' = S - K * exp (- r * T).
Proof.
  intros HS HK HT Hv Hm.
  assert (Hm' : moderate_inputs S K T r (- vol)).
  { unfold moderate_inputs in *. rewrite Rabs_Ropp. exact Hm. }
  destruct (moderate_inputs_in_range _ _ _ _ _ Hm) as (_ & _ & _ & _ & D & _).
  assert (D0 : vol * sqrt T <> 0).
  { pose proof PyFacts.underflow_threshold_small as [Hu _].
    intros Z. rewrite Z, Rabs_R0 in D. lra. }
  exists (call_formula S K T r vol), (call_formula S K T r (- vol)),
         (put_computed S K T r vol), (put_computed S K T r (- vol)).
  split; [apply black_scholes_moderate; exact Hm | ].
  split; [apply black_scholes_moderate; exact Hm' | ].
  assert (E : call_formula S K T r (- vol) = - put_formula S K T r vol).
  { unfold call_formula, put_formula.
    rewrite (bs_d1_neg_vol S K T r vol D0), (bs_d2_neg_vol S K T r vol D0). ring. }
  split; [exact E | ].
  rewrite E. pose proof (closed_form_parity S K T r vol). lra.
Qed.

Lemma negative_vol_call_witness :
  exists c c' p p' : R,
    black_scholes 100 110 1 0.05 0.2 = Return (c, p)
    /\ black_scholes 100 110 1 0.05 (- (0.2)) = Return (c', p')
    /\ c' = - put_formula 100 110 1 0.05 0.2
    /\ c + c' = 100 - 110 * exp (- (0.05) * 1).
Proof.
  apply (negative_vol_call 100 110 1 0.05 0.2); try lra.
  unfold moderate_inputs. rewrite !Rabs_right by lra. lra.
Defined.

(** X5.  At the money with a zero rate, on every positive spot, time and
    volatility far inside the range of the doubles: the pricer returns, the
    call returned is not negative, the put returned is not positive, and the
    call exceeds the put by [S * cdf(vol*sqrt(T)/2)^2], at least a quarter
    of the spot. *)
Theorem at_the_money_prices (S T vol : R) :
  0 < S -> 0 < T -> 0 < vol ->
  moderate_inputs S S T 0 vol ->
  exists c p : R,
    black_scholes S S T 0 vol = Return (c, p)
    /\ p <= 0 <= c
    /\ c - p = S * (norm_cdf (vol * sqrt T / 2) * norm_cdf (vol * sqrt T / 2))
    /\ S / 4 <= c - p.
Proof.
  intros HS HT Hv Hm.
  exists (call_formula S S T 0 vol), (put_computed S S T 0 vol).
  split; [apply black_scholes_moderate; exact Hm | ].
  split; [split; [apply atm_put_computed_nonpos | apply atm_call_nonneg]; assumption | ].
  split; [apply atm_call_minus_put | apply atm_call_minus_put_lower]; assumption.
Qed.

Lemma at_the_money_prices_witness :
  exists c p : R,
    black_scholes 50 50 2 0 0.3 = Return (c, p)
    /\ p <= 0 <= c
    /\ c - p = 50 * (norm_cdf (0.3 * sqrt 2 / 2) * norm_cdf (0.3 * sqrt 2 / 2))
    /\ 50 / 4 <= c - p.
Proof.
  apply (at_the_money_prices 50 2 0.3); try lra.
  unfold moderate_inputs. rewrite !Rabs_right by lra. lra.
Defined.

(** ** The loops of the two reporters *)

Lemma bind_return {A : Type} (m : result A) : (x <- m ;; Return x) = m.
Proof. destruct m; reflexivity. Qed.

Lemma pricer_returns_on_nil (S t r : R) : pricer_returns_on S t r [].
Proof. intros call vol []. Qed.

Lemma pricer_returns_on_app (S t r : R) (l1 l2 : list OptionRow) :
  pricer_returns_on S t r (l1 ++ l2)
  <-> pricer_returns_on S t r l1 /\ pricer_returns_on S t r l2.
Proof.
  split.
  - intros H. split; intros call vol Hin; apply H; apply in_or_app; auto.
  - intros [H1 H2] call vol Hin. apply in_app_or in Hin.
    destruct Hin; [apply H1 | apply H2]; assumption.
Qed.

Lemma pricer_returns_on_cons (S t r : R) (call : OptionRow) (l : list OptionRow) :
  pricer_returns_on S t r (call :: l)
  <-> (forall vol, checked_vol (impliedVolatility call) = Some vol ->
         exists px, black_scholes S (strike call) t r vol = Return px)
      /\ pricer_returns_on S t r l.
Proof.
  split.
  - intros H. split.
    + intros vol Hv. apply (H call vol); [left; reflexivity | exact Hv].
    + apply (pricer_returns_on_tail _ _ _ _ _ H).
  - intros [H1 H2] c vol [<- | Hin] Hv; [apply H1 | apply (H2 c vol Hin)]; exact Hv.
Qed.

(** Both loop bodies have one shape: a row whose volatility fails the test
    leaves [prices] as it is; any other row goes to the pricer, whose
    exception ends the loop, and whose prices decide what is appended. *)

Section LoopBody.

Variables S t r : R.
Variable B : Type.
Variable body : list B -> OptionRow -> result (list B).
Variable emit : OptionRow -> R -> R * R -> list B.

Hypothesis body_shape :
  forall (prices : list B) (call : OptionRow),
    body prices call
    = match checked_vol (impliedVolatility call) with
      | None => Return prices
      | Some vol =>
          px <- black_scholes S (strike call) t r vol ;;
          Return (prices ++ emit call vol px)
      end.

Lemma body_acc (prices : list B) (call : OptionRow) :
  body prices call = (rows <- body [] call ;; Return (prices ++ rows)).
Proof.
  rewrite (body_shape prices call), (body_shape [] call).
  destruct (checked_vol (impliedVolatility call)) as [vol | ].
  - destruct (black_scholes S (strike call) t r vol) as [e | px]; reflexivity.
  - cbn. rewrite app_nil_r. reflexivity.
Qed.

Lemma loop_acc (l : list OptionRow) (acc : list B) :
  for_each body l acc = (rows <- for_each body l [] ;; Return (acc ++ rows)).
Proof.
  revert acc. induction l as [ | call l IH]; intros acc.
  - cbn. rewrite app_nil_r. reflexivity.
  - cbn [for_each]. rewrite (body_acc acc call).
    destruct (body [] call) as [e | rows0]; [reflexivity | ].
    cbn [bind]. rewrite (IH (acc ++ rows0)), (IH rows0).
    destruct (for_each body l []) as [e | rows]; [reflexivity | ].
    cbn [bind]. rewrite app_assoc. reflexivity.
Qed.

Lemma loop_cons (call : OptionRow) (l : list OptionRow) :
  for_each body (call :: l) []
  = (rows0 <- body [] call ;; rows <- for_each body l [] ;; Return (rows0 ++ rows)).
Proof.
  cbn [for_each]. destruct (body [] call) as [e | rows0]; [reflexivity | ].
  cbn [bind]. apply loop_acc.
Qed.

Lemma loop_app (l1 l2 : list OptionRow) :
  for_each body (l1 ++ l2) []
  = (rows1 <- for_each body l1 [] ;;
     rows2 <- for_each body l2 [] ;;
     Return (rows1 ++ rows2)).
Proof.
  induction l1 as [ | call l1 IH].
  - cbn. destruct (for_each body l2 []); reflexivity.
  - rewrite <- app_comm_cons, !loop_cons, IH.
    destruct (body [] call) as [e | rows0]; [reflexivity | cbn [bind]].
    destruct (for_each body l1 []) as [e | rows1]; [reflexivity | cbn [bind]].
    destruct (for_each body l2 []) as [e | rows2]; [reflexivity | cbn [bind]].
    rewrite app_assoc. reflexivity.
Qed.

Lemma loop_returns_iff (l : list OptionRow) :
  (exists rows, for_each body l [] = Return rows) <-> pricer_returns_on S t r l.
Proof.
  induction l as [ | call l IH].
  - split; [intros _; apply pricer_returns_on_nil | intros _; exists []; reflexivity].
  - rewrite loop_cons, pricer_returns_on_cons, <- IH, body_shape.
    destruct (checked_vol (impliedVolatility call)) as [vol | ].
    + destruct (black_scholes S (strike call) t r vol) as [e | px] eqn:Ebs; cbn [bind].
      * split; [intros [rows H]; discriminate | ].
        intros [H _]. destruct (H vol eq_refl) as [px Hpx]. congruence.
      * destruct (for_each body l []) as [e | rows]; cbn [bind].
        -- split; [intros [rows H]; discriminate | intros [_ [rows H]]; discriminate].
        -- split.
           ++ intros _. split; [ | exists rows; reflexivity].
              intros v Hv. injection Hv as <-. exists px. exact Ebs.
           ++ intros _. eexists. reflexivity.
    + cbn [bind]. destruct (for_each body l []) as [e | rows]; cbn [bind].
      * split; [intros [rows H]; discriminate | intros [_ [rows H]]; discriminate].
      * split.
        -- intros _. split; [intros v Hv; discriminate | exists rows; reflexivity].
        -- intros _. eexists. reflexivity.
Qed.

Lemma loop_raise_iff (l : list OptionRow) (e : exn) :
  for_each body l [] = Raise e
  <-> exists (pre : list OptionRow) (call : OptionRow) (post : list OptionRow)
             (vol : R),
        l = pre ++ call :: post
        /\ pricer_returns_on S t r pre
        /\ checked_vol (impliedVolatility call) = Some vol
        /\ black_scholes S (strike call) t r vol = Raise e.
Proof.
  split.
  - induction l as [ | call l IH]; [discriminate | ].
    rewrite loop_cons.
    destruct (body [] call) as [e0 | rows0] eqn:Eb; cbn [bind].
    + intros H. injection H as ->.
      rewrite body_shape in Eb.
      destruct (checked_vol (impliedVolatility call)) as [vol | ] eqn:Ev;
        [ | discriminate].
      destruct (black_scholes S (strike call) t r vol) as [e1 | px] eqn:Ebs;
        [ | discriminate].
      injection Eb as ->.
      exists [], call, l, vol.
      repeat split; try assumption. apply pricer_returns_on_nil.
    + intros H.
      destruct (for_each body l []) as [e1 | rows] eqn:El; [ | discriminate].
      injection H as ->.
      destruct (IH eq_refl) as (pre & c & post & vol & -> & Hpre & Hv & Hbs).
      exists (call :: pre), c, post, vol.
      repeat split; try assumption.
      apply pricer_returns_on_cons. split; [ | exact Hpre].
      intros v Hcv. rewrite body_shape, Hcv in Eb.
      destruct (black_scholes S (strike call) t r v) as [e1 | px];
        [discriminate | exists px; reflexivity].
  - intros (pre & call & post & vol & -> & Hpre & Hv & Hbs).
    rewrite loop_app.
    apply loop_returns_iff in Hpre. destruct Hpre as [rows Hrows].
    rewrite Hrows. cbn [bind].
    rewrite loop_cons, body_shape, Hv, Hbs. reflexivity.
Qed.

End LoopBody.

(** What a priced row adds to either list. *)

Lemma table_body_shape (S t r : R) (prices : list ModelRow) (call : OptionRow) :
  table_body S t r prices call
  = match checked_vol (impliedVolatility call) with
    | None => Return prices
    | Some vol =>
        px <- black_scholes S (strike call) t r vol ;;
        Return (prices ++ [mk_ModelRow (strike call) (fst px) (snd px) vol])
    end.
Proof.
  unfold table_body.
  destruct (checked_vol (impliedVolatility call)) as [vol | ]; [ | reflexivity].
  destruct (black_scholes S (strike call) t r vol) as [e | [c p]]; reflexivity.
Qed.

Lemma market_body_shape (S t r : R) (prices : list MarketRow) (call : OptionRow) :
  market_body S t r prices call
  = match checked_vol (impliedVolatility call) with
    | None => Return prices
    | Some vol =>
        px <- black_scholes S (strike call) t r vol ;;
        Return (prices ++
                match mid_price call with
                | NaN => []
                | Fin m => [mk_MarketRow (strike call) (fst px) m (m - fst px) vol]
                end)
    end.
Proof.
  unfold market_body, mid_price.
  destruct (checked_vol (impliedVolatility call)) as [vol | ]; [ | reflexivity].
  destruct (black_scholes S (strike call) t r vol) as [e | [c p]]; [reflexivity | ].
  cbn [bind fst].
  destruct (float_div2 (float_add (bid call) (ask call)));
    [rewrite app_nil_r | ]; reflexivity.
Qed.

(** X6.  The model table ends in an exception [e] exactly when the chain
    has a row with a valid implied volatility on which the pricer raises
    [e] while it returns on every such row before it: the first failing row
    decides, and the rows priced before it are lost with the report. *)
Theorem table_raises_iff (S t r : R) (calls : list OptionRow) (e : exn) :
  table_prices S t r calls = Raise e
  <-> exists (pre : list OptionRow) (call : OptionRow) (post : list OptionRow)
             (vol : R),
        calls = pre ++ call :: post
        /\ pricer_returns_on S t r pre
        /\ checked_vol (impliedVolatility call) = Some vol
        /\ black_scholes S (strike call) t r vol = Raise e.
Proof.
  unfold table_prices.
  apply (loop_raise_iff S t r ModelRow (table_body S t r) _ (table_body_shape S t r)).
Qed.

(** X7.  The two reporters fail together: on the same spot, time, rate and
    chain the comparison ends in an exception exactly when the model table
    ends in that exception, and so one returns exactly when the other
    does. *)
Theorem reporters_fail_alike (S t r : R) (calls : list OptionRow) :
  (forall e : exn,
     market_prices S t r calls = Raise e <-> table_prices S t r calls = Raise e)
  /\ ((exists rows, market_prices S t r calls = Return rows)
      <-> (exists rows, table_prices S t r calls = Return rows)).
Proof.
  unfold market_prices, table_prices. split.
  - intros e.
    rewrite (loop_raise_iff S t r MarketRow (market_body S t r) _
               (market_body_shape S t r)).
    rewrite (loop_raise_iff S t r ModelRow (table_body S t r) _
               (table_body_shape S t r)).
    reflexivity.
  - rewrite (loop_returns_iff S t r MarketRow (market_body S t r) _
               (market_body_shape S t r)).
    rewrite (loop_returns_iff S t r ModelRow (table_body S t r) _
               (table_body_shape S t r)).
    reflexivity.
Qed.

(** X8.  A chain put together from two chains is reported as the two
    reports one after the other, by either reporter; an exception in the
    first part ends the whole. *)
Theorem reports_of_appended_chains (S t r : R) (l1 l2 : list OptionRow) :
  table_prices S t r (l1 ++ l2)
  = (rows1 <- table_prices S t r l1 ;;
     rows2 <- table_prices S t r l2 ;;
     Return (rows1 ++ rows2))
  /\ market_prices S t r (l1 ++ l2)
     = (rows1 <- market_prices S t r l1 ;;
        rows2 <- market_prices S t r l2 ;;
        Return (rows1 ++ rows2)).
Proof.
  unfold table_prices, market_prices. split.
  - apply (loop_app S t r ModelRow (table_body S t r) _ (table_body_shape S t r)).
  - apply (loop_app S t r MarketRow (market_body S t r) _ (market_body_shape S t r)).
Qed.

(** A row with a missing bid, at spot 100 on the eve of the expiry: the
    pricer divides by zero before the mid is looked at, and the report ends
    in that exception; without the row the report is empty. *)
Lemma nan_bid_row_raises_on_expiry_eve :
  has_valid_iv (mk_OptionRow 100 (Some (Fin 0.2)) NaN (Fin 5)) = true
  /\ np_isnan (mid_price (mk_OptionRow 100 (Some (Fin 0.2)) NaN (Fin 5))) = true
  /\ blkschl_vs_market 100 [mk_OptionRow 100 (Some (Fin 0.2)) NaN (Fin 5)]
       739000 (mk_datetime 738999 12 0 0 0) 0.045
     = Raise ZeroDivisionError
  /\ blkschl_vs_market 100 [] 739000 (mk_datetime 738999 12 0 0 0) 0.045
     = Return [].
Proof.
  split; [apply has_valid_iv_fin; lra | ].
  split; [reflexivity | ].
  split; [ | reflexivity].
  unfold blkschl_vs_market.
  assert (Et : time_to_expiry 739000 (mk_datetime 738999 12 0 0 0) = 0).
  { unfold time_to_expiry.
    replace (days (datetime_sub (strptime 739000) (mk_datetime 738999 12 0 0 0)))
      with 0%Z by reflexivity.
    lra. }
  rewrite Et. unfold market_prices. cbn [for_each].
  rewrite (market_body_raise 100 0 0.045 [] _ 0.2 ZeroDivisionError).
  - reflexivity.
  - apply checked_vol_some. cbn. split; [reflexivity | lra].
  - cbn [strike]. apply zero_time_sample.
Qed.

Lemma market_prices_insert (S t r : R) (pre post : list OptionRow)
      (call : OptionRow) (vol c p : R) :
  checked_vol (impliedVolatility call) = Some vol ->
  black_scholes S (strike call) t r vol = Return (c, p) ->
  market_prices S t r (pre ++ call :: post)
  = (rows1 <- market_prices S t r pre ;;
     rows2 <- market_prices S t r post ;;
     Return (rows1 ++
             match mid_price call with
             | NaN => []
             | Fin m => [mk_MarketRow (strike call) c m (m - c) vol]
             end ++ rows2)).
Proof.
  intros Hv Hbs. unfold market_prices.
  rewrite (loop_app S t r MarketRow (market_body S t r) _ (market_body_shape S t r)).
  rewrite (loop_cons S t r MarketRow (market_body S t r) _ (market_body_shape S t r)).
  rewrite market_body_shape, Hv, Hbs. cbn [bind fst app].
  destruct (for_each (market_body S t r) pre []) as [e | rows1]; [reflexivity | ].
  cbn [bind].
  destruct (for_each (market_body S t r) post []) as [e | rows2]; reflexivity.
Qed.

(** C8, as the code has it.  For a chain row with a valid implied
    volatility on which the pricer returns the model call [c], wherever the
    row stands in the chain: when bid and ask are the floats [b] and [a] the
    mid is [(b + a) / 2] and the report has, between the rows of what comes
    before and of what comes after, the row with market price [(b + a) / 2]
    and difference [(b + a) / 2 - c]; when the mid is NaN, as with a NaN bid
    and an ask of 5, the row is skipped entirely: the report is the report
    of the chain without it.  When the pricer raises on the row, the report
    ends in that exception instead. *)
Theorem market_report_mid_and_difference
  (S t r : R) (pre post : list OptionRow) (call : OptionRow) (vol c p : R) :
  checked_vol (impliedVolatility call) = Some vol ->
  black_scholes S (strike call) t r vol = Return (c, p) ->
  (forall b a : R, bid call = Fin b -> ask call = Fin a ->
     mid_price call = Fin ((b + a) / 2)
     /\ market_prices S t r (pre ++ call :: post)
        = (rows1 <- market_prices S t r pre ;;
           rows2 <- market_prices S t r post ;;
           Return (rows1 ++
                   mk_MarketRow (strike call) c ((b + a) / 2)
                                ((b + a) / 2 - c) vol :: rows2)))
  /\ (np_isnan (mid_price call) = true ->
        market_prices S t r (pre ++ call :: post)
        = market_prices S t r (pre ++ post))
  /\ (bid call = NaN -> ask call = Fin 5 ->
        market_prices S t r (pre ++ call :: post)
        = market_prices S t r (pre ++ post)).
Proof.
  intros Hv Hbs.
  pose proof (market_prices_insert S t r pre post call vol c p Hv Hbs) as E.
  assert (Hskip : mid_price call = NaN ->
                  market_prices S t r (pre ++ call :: post)
                  = market_prices S t r (pre ++ post)).
  { intros Hm. rewrite E, Hm. cbn [app]. unfold market_prices.
    rewrite (loop_app S t r MarketRow (market_body S t r) _ (market_body_shape S t r)).
    reflexivity. }
  split; [ | split].
  - intros b a Hb Ha.
    pose proof (mid_price_fin call b a Hb Ha) as Hm.
    split; [exact Hm | ]. rewrite E, Hm. reflexivity.
  - intros Hnan. apply Hskip.
    destruct (mid_price call); [reflexivity | discriminate].
  - intros Hb _. apply Hskip. apply mid_price_nan_bid. exact Hb.
Qed.

Lemma market_report_mid_and_difference_witness :
  market_prices 100 1 0.045 chain_odd_quotes
  = market_prices 100 1 0.045
      ([ mk_OptionRow 90 (Some (Fin 0.25)) (Fin (- 1)) (Fin (- 3));
         mk_OptionRow 100 (Some (Fin 0.2)) (Fin 7) (Fin 5) ] ++ []).
Proof.
  assert (Hv : checked_vol
                 (impliedVolatility (mk_OptionRow 110 (Some (Fin 0.2)) NaN (Fin 5)))
               = Some 0.2).
  { apply checked_vol_some. cbn. split; [reflexivity | lra]. }
  assert (Hbs : black_scholes 100 110 1 0.045 0.2
                = Return (call_formula 100 110 1 0.045 0.2,
                          put_computed 100 110 1 0.045 0.2)).
  { apply black_scholes_moderate. apply moderate_sample; lra. }
  destruct (market_report_mid_and_difference 100 1 0.045
              [ mk_OptionRow 90 (Some (Fin 0.25)) (Fin (- 1)) (Fin (- 3));
                mk_OptionRow 100 (Some (Fin 0.2)) (Fin 7) (Fin 5) ]
              [] (mk_OptionRow 110 (Some (Fin 0.2)) NaN (Fin 5)) 0.2 _ _ Hv Hbs)
    as (_ & _ & H).
  apply H; reflexivity.
Defined.

Lemma subseq_refl {A : Type} (l : list A) : subseq l l.
Proof. induction l; constructor; assumption. Qed.

Lemma subseq_app {A : Type} (a1 a2 b1 b2 : list A) :
  subseq a1 a2 -> subseq b1 b2 -> subseq (a1 ++ b1) (a2 ++ b2).
Proof.
  intros Ha Hb. induction Ha; cbn; try constructor; assumption.
Qed.

Lemma subseq_length {A : Type} (l1 l2 : list A) :
  subseq l1 l2 -> (length l1 <= length l2)%nat.
Proof. intros H. induction H; cbn; lia. Qed.

(** X9.  When both reports are built from the same spot, time, rate and
    chain, every row of the comparison is a row of the model table: the
    strikes, model call prices and volatilities of the comparison are those
    of the model table with some rows left out and the order kept, so the
    comparison is never the longer of the two. *)
Theorem comparison_rows_among_model_rows
  (S t r : R) (calls : list OptionRow)
  (mrows : list ModelRow) (krows : list MarketRow) :
  table_prices S t r calls = Return mrows ->
  market_prices S t r calls = Return krows ->
  subseq (map market_columns krows) (map model_columns mrows)
  /\ (length krows <= length mrows)%nat.
Proof.
  intros Hm Hk.
  assert (Hs : subseq (map market_columns krows) (map model_columns mrows)).
  { revert mrows krows Hm Hk. unfold table_prices, market_prices.
    induction calls as [ | call calls IH]; intros mrows krows Hm Hk.
    - cbn in Hm, Hk. injection Hm as <-. injection Hk as <-. constructor.
    - rewrite (loop_cons S t r ModelRow (table_body S t r) _ (table_body_shape S t r))
        in Hm.
      rewrite (loop_cons S t r MarketRow (market_body S t r) _ (market_body_shape S t r))
        in Hk.
      rewrite table_body_shape in Hm. rewrite market_body_shape in Hk.
      destruct (for_each (table_body S t r) calls []) as [e | mrest];
        [destruct (checked_vol (impliedVolatility call)) as [vol | ];
         [destruct (black_scholes S (strike call) t r vol) | ]; discriminate | ].
      destruct (for_each (market_body S t r) calls []) as [e | krest];
        [destruct (checked_vol (impliedVolatility call)) as [vol | ];
         [destruct (black_scholes S (strike call) t r vol) | ]; discriminate | ].
      specialize (IH mrest krest eq_refl eq_refl).
      destruct (checked_vol (impliedVolatility call)) as [vol | ].
      + destruct (black_scholes S (strike call) t r vol) as [e | px];
          [discriminate | ].
        cbn in Hm, Hk. injection Hm as <-.
        destruct (mid_price call) as [ | m]; cbn in Hk; injection Hk as <-; cbn.
        * apply subseq_drop. exact IH.
        * apply subseq_keep. exact IH.
      + cbn in Hm, Hk. injection Hm as <-. injection Hk as <-. exact IH. }
  split; [exact Hs | ].
  apply subseq_length in Hs. rewrite !length_map in Hs. exact Hs.
Qed.

Lemma comparison_rows_among_model_rows_witness :
  exists (mrows : list ModelRow) (krows : list MarketRow),
    table_prices 100 1 0.045 chain_odd_quotes = Return mrows
    /\ market_prices 100 1 0.045 chain_odd_quotes = Return krows
    /\ subseq (map market_columns krows) (map model_columns mrows)
    /\ (length krows <= length mrows)%nat.
Proof.
  destruct (proj2 (loop_returns_iff 100 1 0.045 ModelRow (table_body 100 1 0.045) _
                     (table_body_shape 100 1 0.045) chain_odd_quotes)
                  chain_odd_quotes_priced) as [mrows Hm].
  destruct (proj2 (loop_returns_iff 100 1 0.045 MarketRow (market_body 100 1 0.045) _
                     (market_body_shape 100 1 0.045) chain_odd_quotes)
                  chain_odd_quotes_priced) as [krows Hk].
  exists mrows, krows.
  split; [exact Hm | split; [exact Hk | ]].
  apply (comparison_rows_among_model_rows 100 1 0.045 chain_odd_quotes mrows krows Hm Hk).
Defined.

(** ** Time to expiry and the reports *)

Lemma pricer_raises_without_time (S K T r vol : R) :
  T <= 0 -> exists e : exn, black_scholes S K T r vol = Raise e.
Proof.
  intros HT.
  pose proof PyFacts.underflow_threshold_small as [Hu _].
  destruct (black_scholes_outcome S K T r vol)
    as [(_ & E) | [(_ & _ & E) | [(_ & _ & _ & E)
       | [(_ & _ & _ & E) | [(_ & _ & _ & _ & E)
       | [(_ & _ & _ & _ & _ & E) | (_ & _ & HT' & HD & _)]]]]]];
    try (eexists; exact E).
  exfalso.
  assert (Z : T = 0) by lra.
  rewrite Z, sqrt_0, Rmult_0_r, Rabs_R0 in HD. lra.
Qed.

Lemma no_valid_iv_no_rows (S t r : R) (calls : list OptionRow) :
  (forall call, In call calls -> has_valid_iv call = false) ->
  table_prices S t r calls = Return [] /\ market_prices S t r calls = Return [].
Proof.
  unfold table_prices, market_prices.
  induction calls as [ | call calls IH]; intros H; [split; reflexivity | ].
  cbn [for_each].
  rewrite (table_body_skip S t r [] call (H call (or_introl eq_refl))).
  rewrite (market_body_skip_vol S t r [] call (H call (or_introl eq_refl))).
  cbn [bind]. apply IH. intros c Hc. apply H. right. exact Hc.
Qed.

Lemma valid_row_raises_without_time (S t r : R) (calls : list OptionRow) :
  t <= 0 ->
  (exists call, In call calls /\ has_valid_iv call = true) ->
  (exists e : exn, table_prices S t r calls = Raise e)
  /\ (exists e : exn, market_prices S t r calls = Raise e).
Proof.
  intros Ht (call & Hin & Hv).
  assert (Hno : ~ pricer_returns_on S t r calls).
  { intros Hret. apply has_valid_iv_true in Hv. destruct Hv as [v Ev].
    destruct (Hret call v Hin Ev) as [px Hpx].
    destruct (pricer_raises_without_time S (strike call) t r v Ht) as [e He].
    congruence. }
  split.
  - destruct (table_prices S t r calls) as [e | rows] eqn:E; [exists e; reflexivity | ].
    exfalso. apply Hno.
    apply (loop_returns_iff S t r ModelRow (table_body S t r) _ (table_body_shape S t r)).
    exists rows. exact E.
  - destruct (market_prices S t r calls) as [e | rows] eqn:E; [exists e; reflexivity | ].
    exfalso. apply Hno.
    apply (loop_returns_iff S t r MarketRow (market_body S t r) _ (market_body_shape S t r)).
    exists rows. exact E.
Qed.

(** X10.  With a time to expiry that is zero or negative the model table
    cannot succeed on a chain that has anything to price: if no row has a
    valid implied volatility the result is the empty list, and if some row
    has one the report ends in an exception, whatever the spot, the strikes
    and the rate. *)
Theorem table_without_time (S t r : R) (calls : list OptionRow) :
  t <= 0 ->
  ((forall call, In call calls -> has_valid_iv call = false) ->
   table_prices S t r calls = Return [])
  /\ ((exists call, In call calls /\ has_valid_iv call = true) ->
      exists e : exn, table_prices S t r calls = Raise e).
Proof.
  intros Ht. split.
  - intros H. apply (no_valid_iv_no_rows S t r calls H).
  - intros H. apply (valid_row_raises_without_time S t r calls Ht H).
Qed.

Lemma table_without_time_witness :
  ((forall call, In call chain_nan_second -> has_valid_iv call = false) ->
   table_prices 100 0 0.045 chain_nan_second = Return [])
  /\ ((exists call, In call chain_nan_second /\ has_valid_iv call = true) ->
      exists e : exn, table_prices 100 0 0.045 chain_nan_second = Raise e).
Proof. apply (table_without_time 100 0 0.045 chain_nan_second). lra. Defined.

Lemma days_sign (expiry : Z) (now : datetime) :
  datetime_wf now ->
  ((0 < days (datetime_sub (strptime expiry) now))%Z
   <-> (us_per_day <= elapsed_us expiry now)%Z)
  /\ (days (datetime_sub (strptime expiry) now) = 0%Z
      <-> (0 <= elapsed_us expiry now < us_per_day)%Z)
  /\ ((days (datetime_sub (strptime expiry) now) < 0)%Z
      <-> (elapsed_us expiry now < 0)%Z).
Proof.
  intros Hwf. rewrite (days_to_expiry_floor expiry now Hwf).
  unfold us_per_day.
  generalize (elapsed_us expiry now). intros z.
  split; [ | split]; (split; intro Hz); Z.to_euclidean_division_equations; lia.
Qed.

(** X11.  The sign of the time to expiry.  It is positive exactly when the
    midnight that opens the expiry date is at least 24 hours away, zero
    during the 24 hours before that midnight, and negative from that
    midnight on. *)
Theorem time_to_expiry_sign (expiry : Z) (now : datetime) :
  datetime_wf now ->
  (0 < time_to_expiry expiry now <-> (us_per_day <= elapsed_us expiry now)%Z)
  /\ (time_to_expiry expiry now = 0
      <-> (0 <= elapsed_us expiry now < us_per_day)%Z)
  /\ (time_to_expiry expiry now < 0 <-> (elapsed_us expiry now < 0)%Z).
Proof.
  intros Hwf.
  destruct (days_sign expiry now Hwf) as (Hp & Hz & Hn).
  unfold time_to_expiry.
  set (d := days (datetime_sub (strptime expiry) now)) in *.
  split; [ | split]; (split; intro H).
  - apply Hp. apply lt_IZR. lra.
  - apply Hp in H. apply IZR_lt in H. lra.
  - apply Hz. apply eq_IZR. lra.
  - apply Hz in H. rewrite H. lra.
  - apply Hn. apply lt_IZR. lra.
  - apply Hn in H. apply IZR_lt in H. lra.
Qed.

Lemma time_to_expiry_sign_witness :
  (0 < time_to_expiry 739000 (mk_datetime 738635 9 30 0 0)
   <-> (us_per_day <= elapsed_us 739000 (mk_datetime 738635 9 30 0 0))%Z)
  /\ (time_to_expiry 739000 (mk_datetime 738635 9 30 0 0) = 0
      <-> (0 <= elapsed_us 739000 (mk_datetime 738635 9 30 0 0) < us_per_day)%Z)
  /\ (time_to_expiry 739000 (mk_datetime 738635 9 30 0 0) < 0
      <-> (elapsed_us 739000 (mk_datetime 738635 9 30 0 0) < 0)%Z).
Proof.
  apply (time_to_expiry_sign 739000 (mk_datetime 738635 9 30 0 0)).
  unfold datetime_wf. cbn. lia.
Defined.

(** X12.  Run less than 24 hours before the midnight that opens the expiry
    date, or at any time after it, [blkschl_vs_market] ends in an exception
    on every chain that has a row with a valid implied volatility, and
    returns the empty list on the others. *)
Theorem comparison_fails_near_expiry
  (S : R) (calls : list OptionRow) (expiry : Z) (now : datetime) (r : R) :
  datetime_wf now ->
  (elapsed_us expiry now < us_per_day)%Z ->
  ((forall call, In call calls -> has_valid_iv call = false) ->
   blkschl_vs_market S calls expiry now r = Return [])
  /\ ((exists call, In call calls /\ has_valid_iv call = true) ->
      exists e : exn, blkschl_vs_market S calls expiry now r = Raise e).
Proof.
  intros Hwf Hnear. unfold blkschl_vs_market.
  assert (Ht : time_to_expiry expiry now <= 0).
  { destruct (days_sign expiry now Hwf) as (Hp & _ & _).
    unfold time_to_expiry.
    assert (Hd : (days (datetime_sub (strptime expiry) now) <= 0)%Z).
    { destruct (Z_lt_le_dec 0 (days (datetime_sub (strptime expiry) now)))
        as [Hlt | Hle]; [apply Hp in Hlt; lia | exact Hle]. }
    apply IZR_le in Hd. lra. }
  split.
  - intros H. apply (no_valid_iv_no_rows S _ r calls H).
  - intros H. apply (valid_row_raises_without_time S _ r calls Ht H).
Qed.

Lemma comparison_fails_near_expiry_witness :
  ((forall call, In call chain_odd_quotes -> has_valid_iv call = false) ->
   blkschl_vs_market 100 chain_odd_quotes 739000 (mk_datetime 738999 0 0 1 0) 0.045
   = Return [])
  /\ ((exists call, In call chain_odd_quotes /\ has_valid_iv call = true) ->
      exists e : exn,
        blkschl_vs_market 100 chain_odd_quotes 739000
          (mk_datetime 738999 0 0 1 0) 0.045 = Raise e).
Proof.
  apply (comparison_fails_near_expiry 100 chain_odd_quotes 739000
           (mk_datetime 738999 0 0 1 0) 0.045).
  - unfold datetime_wf. cbn. lia.
  - vm_compute. reflexivity.
Defined.

(** ** Contents of the reports on moderate inputs *)

Lemma iv_value_checked (call : OptionRow) (v : R) :
  checked_vol (impliedVolatility call) = Some v -> iv_value call = v.
Proof. intros H. unfold iv_value. rewrite H. reflexivity. Qed.

Lemma moderate_chain_tail (S t r : R) (call : OptionRow) (calls : list OptionRow) :
  moderate_chain S t r (call :: calls) -> moderate_chain S t r calls.
Proof. intros H c v Hin. apply H. right. exact Hin. Qed.

Section ModerateInputs.

Variables S t r : R.

Lemma table_loop_moderate (calls : list OptionRow) :
  moderate_chain S t r calls ->
  for_each (table_body S t r) calls []
  = Return (map (model_entry S t r) (filter has_valid_iv calls)).
Proof.
  induction calls as [ | call calls IH]; intros HK; [reflexivity | ].
  rewrite (loop_cons S t r ModelRow (table_body S t r) _ (table_body_shape S t r)).
  rewrite IH by (apply (moderate_chain_tail _ _ _ _ _ HK)).
  cbn [filter].
  destruct (has_valid_iv call) eqn:Hv.
  - apply has_valid_iv_true in Hv. destruct Hv as [v Ev].
    pose proof (HK call v (or_introl eq_refl) Ev) as Hm.
    rewrite (table_body_emit S t r [] call v _ _ Ev
               (black_scholes_moderate S (strike call) t r v Hm)).
    cbn [bind app map]. unfold model_entry.
    rewrite (iv_value_checked call v Ev). reflexivity.
  - rewrite (table_body_skip S t r [] call Hv). reflexivity.
Qed.

Lemma market_loop_moderate (calls : list OptionRow) :
  moderate_chain S t r calls ->
  for_each (market_body S t r) calls []
  = Return (map (market_entry S t r) (filter quoted calls)).
Proof.
  induction calls as [ | call calls IH]; intros HK; [reflexivity | ].
  rewrite (loop_cons S t r MarketRow (market_body S t r) _ (market_body_shape S t r)).
  rewrite IH by (apply (moderate_chain_tail _ _ _ _ _ HK)).
  assert (Hq : quoted call = has_valid_iv call && negb (np_isnan (mid_price call)))
    by reflexivity.
  cbn [filter]. rewrite Hq. clear Hq.
  destruct (has_valid_iv call) eqn:Hv; cbn [andb].
  - apply has_valid_iv_true in Hv. destruct Hv as [v Ev].
    pose proof (HK call v (or_introl eq_refl) Ev) as Hm.
    rewrite (market_body_priced S t r [] call v _ _ Ev
               (black_scholes_moderate S (strike call) t r v Hm)).
    unfold market_entry, mid_value.
    destruct (mid_price call) as [ | m] eqn:Em; cbn [bind app map np_isnan negb];
      [reflexivity | ].
    rewrite (iv_value_checked call v Ev), Em. reflexivity.
  - rewrite (market_body_skip_vol S t r [] call Hv). reflexivity.
Qed.

End ModerateInputs.

(** X13.  When every row with a valid implied volatility reaches the
    pricer on inputs far inside the range of the doubles (spot, strike,
    time and volatility between [2^-64] and [2^64], [r * T] at most 500 in
    magnitude), the model table does not fail, and its entries are, for
    those rows in chain order: the strike, the call of the closed form, the
    put as line 21 computes it, and the row's volatility. *)
Theorem table_contents (S t r : R) (calls : list OptionRow) :
  moderate_chain S t r calls ->
  table_prices S t r calls
  = Return (map (model_entry S t r) (filter has_valid_iv calls)).
Proof. intros HK. apply table_loop_moderate. exact HK. Qed.

Lemma table_contents_witness :
  table_prices 100 1 0.045 chain_nan_second
  = Return (map (model_entry 100 1 0.045) (filter has_valid_iv chain_nan_second)).
Proof.
  apply (table_contents 100 1 0.045 chain_nan_second).
  exact chain_nan_second_moderate.
Defined.

(** X14.  Under the same condition the comparison does not fail, and its
    entries are, for the rows with a valid implied volatility and a mid that
    is not NaN, in chain order: the strike, the call of the closed form, the
    mid of bid and ask, the mid minus that call, and the row's volatility. *)
Theorem comparison_contents (S t r : R) (calls : list OptionRow) :
  moderate_chain S t r calls ->
  market_prices S t r calls
  = Return (map (market_entry S t r) (filter quoted calls)).
Proof. intros HK. apply market_loop_moderate. exact HK. Qed.

Lemma comparison_contents_witness :
  market_prices 100 1 0.045 chain_odd_quotes
  = Return (map (market_entry 100 1 0.045) (filter quoted chain_odd_quotes)).
Proof.
  apply (comparison_contents 100 1 0.045 chain_odd_quotes).
  exact chain_odd_quotes_moderate.
Defined.
